(** * Budgie (src/extension.ts): random file activity loop

    A shallow embedding of the extension's functions: [getRandomFile],
    [selectRandomLines], [deselectLines], [scrollUpAndDown], [runLoop] and
    the two command handlers registered by [activate].

    JavaScript numbers that hold line numbers, lengths and milliseconds are
    integers here ([Z]).  [Math.random()] is a rational in [0, 1) and the
    product [Math.random() * n] is exact.  The extension host (file search,
    documents, editors, clipboard, timers) is an explicit environment [Env]
    and a mutable [World]; every action the code asks of the host is
    recorded in the world's log together with the value [isRunning] had at
    that moment. *)

From Stdlib Require Import List ZArith QArith Qround String Ascii Bool Lia.
Import ListNotations.
Open Scope Z_scope.

(** ** Host data: Uri, Position, Range, Selection, TextDocument, TextEditor *)

(** [vscode.Uri]: the code only ever reads [fsPath]; [query] stands for the
    components of a Uri that [fsPath] does not determine. *)
Record Uri := mkUri { fsPath : string; query : string }.

Record Position := mkPosition { line : Z; character : Z }.

(** [new vscode.Position(line, character)] rejects negative arguments. *)
Definition newPosition (l c : Z) : option Position :=
  if (l <? 0) || (c <? 0) then None else Some (mkPosition l c).

Definition isBeforeOrEqual (a b : Position) : bool :=
  (line a <? line b) || ((line a =? line b) && (character a <=? character b)).

Record Range := mkRange { rstart : Position; rend : Position }.

(** [new vscode.Range(a, b)] swaps its arguments when [a] is after [b]. *)
Definition newRange (a b : Position) : Range :=
  if isBeforeOrEqual a b then mkRange a b else mkRange b a.

(** [new vscode.Selection(anchor, active)]. *)
Record Selection := newSelection { anchor : Position; active : Position }.

(** A document is its lines.  The host never hands out a document without
    lines, but [selectRandomLines] tests for it, so the type allows it. *)
Record TextDocument := mkDocument { lines : list string }.

Definition docLineCount (doc : TextDocument) : Z :=
  Z.of_nat (List.length (lines doc)).

(** [doc.lineAt(n).text]; the host throws when [n] is not a line. *)
Definition lineAt (doc : TextDocument) (n : Z) : option string :=
  if n <? 0 then None else nth_error (lines doc) (Z.to_nat n).

Definition strlen (s : string) : Z := Z.of_nat (String.length s).

Definition dropChars (n : Z) (s : string) : string :=
  substring (Z.to_nat n) (String.length s - Z.to_nat n) s.

Definition takeChars (n : Z) (s : string) : string :=
  substring 0 (Z.to_nat n) s.

Definition newline : string := String (ascii_of_nat 10) EmptyString.

(** [doc.getText(range)] for a range whose lines exist: the text between the
    two positions, lines joined by a line feed. *)
Definition getText (doc : TextDocument) (r : Range) : string :=
  let l1 := Z.to_nat (line (rstart r)) in
  let l2 := Z.to_nat (line (rend r)) in
  let covered := firstn (S (l2 - l1)) (skipn l1 (lines doc)) in
  match covered with
  | [] => EmptyString
  | [only] =>
      takeChars (character (rend r) - character (rstart r))
                (dropChars (character (rstart r)) only)
  | first :: rest =>
      String.concat newline
        (dropChars (character (rstart r)) first
           :: removelast rest
           ++ [takeChars (character (rend r)) (last rest EmptyString)])
  end.

Record TextEditor := mkEditor {
  document : TextDocument;
  selection : Selection;
  revealed : option Range   (* the range last passed to [revealRange] *)
}.

Definition origin : Position := mkPosition 0 0.

Definition freshEditor (doc : TextDocument) : TextEditor :=
  mkEditor doc (newSelection origin origin) None.

(** ** What the code asks of the host, and the log *)

Definition Handle := nat.

Inductive Action :=
| FindFiles
| OpenTextDocument (file : Uri)
| OpenUntitledDocument (content : string)
| ShowTextDocument (doc : TextDocument)
| SetSelection (editor : Handle) (sel : Selection)
| RevealRange (editor : Handle) (r : Range)
| Sleep (ms : Z)
| ClipboardWriteText (text : string)
| EditInsert (editor : Handle) (at_ : Position) (text : string)
| RevertAndCloseActiveEditor
| ShowInformationMessage (msg : string)
| ShowWarningMessage (msg : string).

(** [Checkpoint b]: the code read [isRunning] and saw [b].
    [Performed b a]: the code did [a] while [isRunning] was [b]. *)
Inductive Event :=
| Checkpoint (running : bool)
| Performed (running : bool) (a : Action).

(** ** The world and its environment *)

Record World := mkWorld {
  isRunning : bool;            (* the module variable [isRunning] *)
  clock : Z;                   (* what [Date.now()] returns *)
  awaits : nat;                (* suspensions so far *)
  draws : nat;                 (* calls of [Math.random()] so far *)
  editors : list TextEditor;   (* the editor objects, by handle *)
  log : list Event             (* newest first *)
}.

(** The part of an execution the code does not decide. *)
Record Env := mkEnv {
  (** the k-th value of [Math.random()] *)
  random : nat -> Q;
  random_range : forall k, (0 <= random k)%Q /\ (random k < 1)%Q;
  (** what the command handlers that ran during the k-th suspension of
      this code did to [isRunning] *)
  interference : nat -> bool -> bool;
  (** milliseconds that pass during the k-th suspension, beyond a timer's
      delay *)
  lateness : nat -> nat;
  (** the result of [vscode.workspace.findFiles] *)
  foundFiles : list Uri;
  (** the content of a file *)
  contentOf : Uri -> TextDocument
}.

(** ** A monad for state, [break], exceptions and fuel *)

Inductive Outcome (A : Type) :=
| Ret (a : A)     (* normal completion *)
| Brk             (* [break] out of the enclosing loop *)
| Throw           (* an exception of the host *)
| Fuel.           (* the model's loop bound was reached *)
Arguments Ret {A} a.
Arguments Brk {A}.
Arguments Throw {A}.
Arguments Fuel {A}.

Definition M (A : Type) : Type := World -> Outcome A * World.

Definition ret {A} (a : A) : M A := fun w => (Ret a, w).

Definition bind {A B} (m : M A) (f : A -> M B) : M B :=
  fun w =>
    match m w with
    | (Ret a, w') => f a w'
    | (Brk, w') => (Brk, w')
    | (Throw, w') => (Throw, w')
    | (Fuel, w') => (Fuel, w')
    end.

Definition break {A} : M A := fun w => (Brk, w).
Definition throw {A} : M A := fun w => (Throw, w).

Declare Scope js_scope.
Delimit Scope js_scope with js.
Notation "x <- m ;; k" := (bind m (fun x => k))
  (at level 61, m at next level, right associativity) : js_scope.
Notation "m ;; k" := (bind m (fun _ => k))
  (at level 61, right associativity) : js_scope.
Open Scope js_scope.

Definition orThrow {A} (o : option A) : M A :=
  match o with Some a => ret a | None => throw end.

(** [while (cond) { body }] with loop-carried locals [s].  [fuel] bounds the
    number of times the body runs. *)
Fixpoint while {S : Type} (fuel : nat) (cond : M bool) (body : S -> M S)
    (s : S) : M S :=
  fun w =>
    match cond w with
    | (Ret true, w1) =>
        match fuel with
        | O => (Fuel, w1)
        | Datatypes.S fuel' =>
            match body s w1 with
            | (Ret s', w2) => while fuel' cond body s' w2
            | (Brk, w2) => (Ret s, w2)
            | (Throw, w2) => (Throw, w2)
            | (Fuel, w2) => (Fuel, w2)
            end
        end
    | (Ret false, w1) => (Ret s, w1)
    | (Brk, w1) => (Brk, w1)
    | (Throw, w1) => (Throw, w1)
    | (Fuel, w1) => (Fuel, w1)
    end.

(** ** Primitive steps *)

Definition record (e : Event) (w : World) : World :=
  mkWorld (isRunning w) (clock w) (awaits w) (draws w) (editors w)
          (e :: log w).

Definition perform (a : Action) : M unit :=
  fun w => (Ret tt, record (Performed (isRunning w) a) w).

(** Reading [isRunning]. *)
Definition checkRunning : M bool :=
  fun w => (Ret (isRunning w), record (Checkpoint (isRunning w)) w).

(** Writing [isRunning]. *)
Definition setRunning (b : bool) : M unit :=
  fun w => (Ret tt,
            mkWorld b (clock w) (awaits w) (draws w) (editors w) (log w)).

Definition dateNow : M Z := fun w => (Ret (clock w), w).

Definition getEditor (h : Handle) : M TextEditor :=
  fun w => orThrow (nth_error (editors w) h) w.

Fixpoint replaceAt {A} (n : nat) (x : A) (l : list A) : list A :=
  match l, n with
  | [], _ => []
  | _ :: t, O => x :: t
  | y :: t, Datatypes.S n' => y :: replaceAt n' x t
  end.

Definition putEditor (h : Handle) (ed : TextEditor) : M unit :=
  fun w => (Ret tt,
            mkWorld (isRunning w) (clock w) (awaits w) (draws w)
                    (replaceAt h ed (editors w)) (log w)).

Definition addEditor (ed : TextEditor) : M Handle :=
  fun w => (Ret (List.length (editors w)),
            mkWorld (isRunning w) (clock w) (awaits w) (draws w)
                    (editors w ++ [ed]) (log w)).

Definition elapse (ms : Z) : M unit :=
  fun w => (Ret tt,
            mkWorld (isRunning w) (clock w + ms) (awaits w) (draws w)
                    (editors w) (log w)).

Section Budgie.

Variable env : Env.

(** [Math.random()]. *)
Definition mathRandom : M Q :=
  fun w => (Ret (random env (draws w)),
            mkWorld (isRunning w) (clock w) (awaits w) (Datatypes.S (draws w))
                    (editors w) (log w)).

(** An [await] on the host: this code is suspended, command handlers may
    run and time passes.  Resuming after one of the extension's own async
    functions returns happens in the same turn of the event loop and is
    not a suspension. *)
Definition suspend : M unit :=
  fun w => (Ret tt,
            mkWorld (interference env (awaits w) (isRunning w))
                    (clock w + Z.of_nat (lateness env (awaits w)))
                    (Datatypes.S (awaits w)) (draws w) (editors w) (log w)).

(** [editor.selection = sel]. *)
Definition setSelection (h : Handle) (sel : Selection) : M unit :=
  ed <- getEditor h ;;
  perform (SetSelection h sel) ;;
  putEditor h (mkEditor (document ed) sel (revealed ed)).

(** [editor.revealRange(r, InCenter)]. *)
Definition revealRange (h : Handle) (r : Range) : M unit :=
  ed <- getEditor h ;;
  perform (RevealRange h r) ;;
  putEditor h (mkEditor (document ed) (selection ed) (Some r)).

(** ** The extension *)

(** [sleep(ms)], awaited. *)
Definition sleep (ms : Z) : M unit :=
  perform (Sleep ms) ;;
  elapse ms ;;
  suspend.

Definition toLowerAscii (c : ascii) : ascii :=
  let n := nat_of_ascii c in
  if ((65 <=? n) && (n <=? 90))%nat then ascii_of_nat (n + 32) else c.

Fixpoint toLowerCase (s : string) : string :=
  match s with
  | EmptyString => EmptyString
  | String c s' => String (toLowerAscii c) (toLowerCase s')
  end.

Definition endsWith (s suffix : string) : bool :=
  let n := String.length s in
  let k := String.length suffix in
  ((k <=? n)%nat && String.eqb (substring (n - k) k s) suffix)%bool.

Definition hasKnownExtension (file : Uri) : bool :=
  let path := toLowerCase (fsPath file) in
  endsWith path ".ts" || endsWith path ".js" || endsWith path ".json" ||
  endsWith path ".md" || endsWith path ".txt" || endsWith path ".html" ||
  endsWith path ".css" || endsWith path ".tsx" || endsWith path ".jsx".

Definition getWorkspaceFiles : M (list Uri) :=
  perform FindFiles ;;
  suspend ;;
  ret (List.filter hasKnownExtension (foundFiles env)).

(** [const available = exclude ? files.filter(...) : files]. *)
Definition availableFiles (files : list Uri) (exclude : option Uri)
    : list Uri :=
  match exclude with
  | Some ex =>
      List.filter (fun f => negb (String.eqb (fsPath f) (fsPath ex))) files
  | None => files
  end.

(** [xs[i]] for an integer [i]; [None] is [undefined]. *)
Definition index {A} (xs : list A) (i : Z) : option A :=
  if i <? 0 then None else nth_error xs (Z.to_nat i).

Definition getRandomFile (files : list Uri) (exclude : option Uri)
    : M (option Uri) :=
  let available := availableFiles files exclude in
  if Z.of_nat (List.length available) =? 0 then ret None
  else
    u <- mathRandom ;;
    let randomIndex :=
      Qfloor (u * inject_Z (Z.of_nat (List.length available))) in
    ret (index available randomIndex).

Definition openFile (file : Uri) : M Handle :=
  perform (OpenTextDocument file) ;;
  suspend ;;
  let doc := contentOf env file in
  perform (ShowTextDocument doc) ;;
  suspend ;;
  addEditor (freshEditor doc).

Definition selectRandomLines (editor : Handle) (lineCount : Z) : M string :=
  ed <- getEditor editor ;;
  let doc := document ed in
  let totalLines := docLineCount doc in
  if totalLines =? 0 then ret EmptyString
  else
    let maxStartLine := Z.max 0 (totalLines - lineCount) in
    u <- mathRandom ;;
    let randomLine := Qfloor (u * inject_Z (maxStartLine + 1)) in
    let endLine := Z.min (randomLine + lineCount - 1) (totalLines - 1) in
    startPos <- orThrow (newPosition randomLine 0) ;;
    endText <- orThrow (lineAt doc endLine) ;;
    endPos <- orThrow (newPosition endLine (strlen endText)) ;;
    setSelection editor (newSelection startPos endPos) ;;
    revealRange editor (newRange startPos endPos) ;;
    ret (getText doc (newRange startPos endPos)).

Definition deselectLines (editor : Handle) : M unit :=
  ed <- getEditor editor ;;
  let pos := active (selection ed) in
  setSelection editor (newSelection pos pos).

(** One pass of the body of the loop of [scrollUpAndDown]; the locals
    [goingDown] and [currentLine] are the loop state. *)
Definition advance (lineCount : Z) (s : bool * Z) : bool * Z :=
  let (goingDown, currentLine) := s in
  if goingDown then
    let currentLine := currentLine + 10 in
    if currentLine >=? lineCount - 1 then (false, lineCount - 1)
    else (goingDown, currentLine)
  else
    let currentLine := currentLine - 10 in
    if currentLine <=? 0 then (true, 0)
    else (goingDown, currentLine).

Definition scrollCond (endTime : Z) : M bool :=
  now <- dateNow ;;
  if now <? endTime then checkRunning else ret false.

Definition scrollBody (editor : Handle) (lineCount : Z) (s : bool * Z)
    : M (bool * Z) :=
  pos <- orThrow (newPosition (snd s) 0) ;;
  revealRange editor (newRange pos pos) ;;
  let s' := advance lineCount s in
  sleep 200 ;;
  ret s'.

(** Every pass sleeps 200 ms at least, so the body runs at most
    [durationMs / 200 + 1] times. *)
Definition scrollFuel (durationMs : Z) : nat :=
  Datatypes.S (Z.to_nat (durationMs / 200)).

Definition scrollUpAndDown (editor : Handle) (durationMs : Z) : M unit :=
  ed <- getEditor editor ;;
  let lineCount := docLineCount (document ed) in
  now <- dateNow ;;
  let endTime := now + durationMs in
  while (scrollFuel durationMs) (scrollCond endTime)
        (scrollBody editor lineCount) (true, 0) ;;
  ret tt.

(** The body of [while (isRunning)] in [runLoop]. *)
Definition cycle (files : list Uri) : M unit :=
  (* Step 1 *)
  file1 <- getRandomFile files None ;;
  match file1 with
  | None => break
  | Some file1 =>
  r <- checkRunning ;;
  if negb r then break else
  editor <- openFile file1 ;;
  selectRandomLines editor 3 ;;
  sleep 2000 ;;
  r <- checkRunning ;;
  if negb r then break else
  deselectLines editor ;;
  (* Step 2 *)
  picked <- getRandomFile files (Some file1) ;;
  let file2 := match picked with Some f => f | None => file1 end in
  r <- checkRunning ;;
  if negb r then break else
  openFile file2 ;;
  sleep 3000 ;;
  r <- checkRunning ;;
  if negb r then break else
  (* Step 3 *)
  file3 <- getRandomFile files None ;;
  match file3 with
  | None => break
  | Some file3 =>
  r <- checkRunning ;;
  if negb r then break else
  editor <- openFile file3 ;;
  copiedText <- selectRandomLines editor 5 ;;
  perform (ClipboardWriteText copiedText) ;;
  suspend ;;
  sleep 500 ;;
  r <- checkRunning ;;
  if negb r then break else
  (* Step 4 *)
  perform (OpenUntitledDocument EmptyString) ;;
  suspend ;;
  let newDoc := mkDocument [EmptyString] in
  perform (ShowTextDocument newDoc) ;;
  suspend ;;
  newEditor <- addEditor (freshEditor newDoc) ;;
  perform (EditInsert newEditor origin copiedText) ;;
  suspend ;;
  sleep 6000 ;;
  r <- checkRunning ;;
  if negb r then break else
  (* Step 5 *)
  perform RevertAndCloseActiveEditor ;;
  suspend ;;
  sleep 500 ;;
  r <- checkRunning ;;
  if negb r then break else
  (* Step 6 *)
  file4 <- getRandomFile files None ;;
  match file4 with
  | None => break
  | Some file4 =>
  r <- checkRunning ;;
  if negb r then break else
  editor <- openFile file4 ;;
  scrollUpAndDown editor 5000
  end end end.

Definition runLoop (fuel : nat) (files : list Uri) : M unit :=
  while fuel checkRunning (fun _ => cycle files) tt.

Definition readRunning : M bool := fun w => (Ret (isRunning w), w).

Definition dquote : string := String (ascii_of_nat 34) EmptyString.

Definition startedMessage : string :=
  "Budgie started! Use " ++ dquote ++ "Budgie: Stop" ++ dquote ++ " to stop.".

(** The handler of [budgie.startRandomFiles].  [runLoop(files)] is not
    awaited: the handler has nothing left to do once the loop is under
    way, so the loop's run is the rest of the handler's effect. *)
Definition startCommand (fuel : nat) : M unit :=
  r <- readRunning ;;
  if r then perform (ShowInformationMessage "Budgie is already running!")
  else
    files <- getWorkspaceFiles ;;
    if Z.of_nat (List.length files) =? 0
    then perform (ShowWarningMessage "No files found in workspace")
    else
      setRunning true ;;
      perform (ShowInformationMessage startedMessage) ;;
      runLoop fuel files.

(** The handler of [budgie.stopRandomFiles]. *)
Definition stopCommand : M unit :=
  r <- readRunning ;;
  if negb r then perform (ShowInformationMessage "Budgie is not running.")
  else
    setRunning false ;;
    perform (ShowInformationMessage "Budgie stopped!").

Definition deactivate : M unit := setRunning false.

End Budgie.

(** ** Definitions used in the statements *)

(** The first line of the window [selectRandomLines] picks in a world. *)
Definition windowStart (env : Env) (w : World) (totalLines lineCount : Z)
    : Z :=
  Qfloor (random env (draws w) *
          inject_Z (Z.max 0 (totalLines - lineCount) + 1)).

Definition windowEnd (env : Env) (w : World) (totalLines lineCount : Z) : Z :=
  Z.min (windowStart env w totalLines lineCount + lineCount - 1)
        (totalLines - 1).


(** The lines [scrollUpAndDown] reveals in its first [n] passes, starting
    from the loop state [s]. *)
Fixpoint scrollLines (lineCount : Z) (n : nat) (s : bool * Z) : list Z :=
  match n with
  | O => []
  | Datatypes.S n' => snd s :: scrollLines lineCount n' (advance lineCount s)
  end.

(** The lines revealed in a log, newest first. *)
Fixpoint revealedLines (evs : list Event) : list Z :=
  match evs with
  | [] => []
  | Performed _ (RevealRange _ r) :: evs' =>
      line (rstart r) :: revealedLines evs'
  | _ :: evs' => revealedLines evs'
  end.

(** *** A monitor for the checkpoint discipline

    [Going]: the loop may act.  [Paused]: the last event was a sleep.
    [Halted]: the last checkpoint read [false]. *)
Inductive Phase := Going | Paused | Halted.

Definition isSleep (a : Action) : bool :=
  match a with Sleep _ => true | _ => false end.

(** After a sleep only a checkpoint is allowed; after a checkpoint that
    read [false] only further reads of [false] are. *)
Definition observe (p : Phase) (e : Event) : option Phase :=
  match p, e with
  | Halted, Checkpoint false => Some Halted
  | Halted, _ => None
  | _, Checkpoint true => Some Going
  | _, Checkpoint false => Some Halted
  | Going, Performed _ a => Some (if isSleep a then Paused else Going)
  | Paused, Performed _ _ => None
  end.

(** The phase after a log (newest first), if the log keeps the discipline. *)
Fixpoint phaseOf (evs : list Event) : option Phase :=
  match evs with
  | [] => Some Going
  | e :: evs' =>
      match phaseOf evs' with
      | Some p => observe p e
      | None => None
      end
  end.

Definition plainEvent (e : Event) : bool :=
  match e with
  | Performed _ a => negb (isSleep a)
  | Checkpoint _ => false
  end.

(** A computation that neither sleeps nor reads the flag nor breaks. *)
Definition plain {A} (m : M A) : Prop :=
  forall w,
    exists new,
      log (snd (m w)) = new ++ log w /\
      forallb plainEvent new = true /\
      match fst (m w) with
      | Ret _ | Throw => True
      | Brk | Fuel => False
      end.

Definition hoare {A} (P : World -> Prop) (m : M A)
    (Q : Outcome A -> World -> Prop) : Prop :=
  forall w, P w -> Q (fst (m w)) (snd (m w)).

(** The log has grown from [base] by events that keep the discipline and
    end in phase [p]; in phase [Halted] the flag is still [false]. *)
Definition At (base : list Event) (p : Phase) (w : World) : Prop :=
  exists new,
    log w = new ++ base /\
    phaseOf new = Some p /\
    (p = Halted -> isRunning w = false).

Definition anyPhase (base : list Event) (w : World) : Prop :=
  At base Going w \/ At base Paused w \/ At base Halted w.

(** How a loop of the extension may end: normally in any phase, by an
    exception or by the model's bound only while going. *)
Definition loopPost {A} (base : list Event) (o : Outcome A) (w : World)
    : Prop :=
  match o with
  | Ret _ => anyPhase base w
  | Brk => False
  | Throw | Fuel => At base Going w
  end.

(** How one pass of [runLoop]'s body may end: a [break] comes from a
    checkpoint that read [false], or from a pick that found no file, and
    then the file list is empty. *)
Definition cyclePost (base : list Event) (files : list Uri)
    (o : Outcome unit) (w : World) : Prop :=
  match o with
  | Ret _ => anyPhase base w
  | Brk => At base Halted w \/ (At base Going w /\ files = [])
  | Throw | Fuel => At base Going w
  end.

Definition runPost (base : list Event) (files : list Uri)
    (o : Outcome unit) (w : World) : Prop :=
  match o with
  | Ret _ => At base Halted w \/ (At base Going w /\ files = [])
  | Brk => False
  | Throw | Fuel => At base Going w
  end.

(** The statement of C7's last clause: no action is logged with the flag
    [false]. *)
Definition neverActsWhileStopped (evs : list Event) : Prop :=
  forall a, ~ In (Performed false a) evs.

(** *** A concrete run: [stop] is invoked while the first file opens *)

Definition half : nat -> Q := fun _ => 1 # 2.

Definition half_range (k : nat) : (0 <= half k)%Q /\ (half k < 1)%Q.
Proof. split; [discriminate | reflexivity]. Defined.

Definition fileA : Uri := mkUri "/w/a.ts" "".
Definition fileB : Uri := mkUri "/w/b.md" "".

Definition fourLines : TextDocument :=
  mkDocument ["a1"; "a2"; "a3"; "a4"]%string.
Definition twoLines : TextDocument := mkDocument ["b1"; "b2"]%string.

Definition noLines : TextDocument := mkDocument [].

Definition sampleContent (f : Uri) : TextDocument :=
  if String.eqb (fsPath f) "/w/a.ts" then fourLines else twoLines.

(** Nothing interferes. *)
Definition calmEnv : Env :=
  mkEnv half half_range (fun _ b => b) (fun _ => 0%nat) [fileA; fileB]
        sampleContent.

(** [stop] runs during the first suspension, which is the wait for
    [openTextDocument] in step 1. *)
Definition stopDuringOpen : Env :=
  mkEnv half half_range (fun k b => if Nat.eqb k 0 then false else b)
        (fun _ => 0%nat) [fileA; fileB] sampleContent.

(** A workspace where no file has a known extension. *)
Definition emptyEnv : Env :=
  mkEnv half half_range (fun _ b => b) (fun _ => 0%nat)
        [mkUri "/w/logo.png" ""] sampleContent.

Definition startWorld (running : bool) : World :=
  mkWorld running 0 0 0 [] [].

Definition editorWorld (doc : TextDocument) : World :=
  mkWorld true 0 0 0 [freshEditor doc] [].

(** ** Definitions used in the further properties *)

(** The extensions [getWorkspaceFiles] lets through, as a list. *)
Definition knownExtensions : list string :=
  [".ts"; ".js"; ".json"; ".md"; ".txt"; ".html"; ".css"; ".tsx";
   ".jsx"]%string.

(** A random source that always yields [i / p]. *)
Definition fixedRandom (i : Z) (p : positive) : nat -> Q := fun _ => i # p.

Definition fixedRandom_range (i : Z) (p : positive)
    (H : 0 <= i < Z.pos p) (k : nat) :
  (0 <= fixedRandom i p k)%Q /\ (fixedRandom i p k < 1)%Q.
Proof.
  unfold fixedRandom, Qle, Qlt. simpl. split; lia.
Qed.

Definition fixedEnv (i : Z) (p : positive) (H : 0 <= i < Z.pos p) : Env :=
  mkEnv (fixedRandom i p) (fixedRandom_range i p H) (fun _ b => b)
        (fun _ => 0%nat) [] (fun _ => mkDocument []).


(** [I] holds after [m] when it held before, and [V] holds of the value
    [m] returns. *)
Definition preserves {A} (I : World -> Prop) (m : M A) (V : A -> Prop)
    : Prop :=
  forall w, I w -> I (snd (m w)) /\ forall a, fst (m w) = Ret a -> V a.

(** The flag satisfies [g] and every event logged since [base] satisfies
    [E]. *)
Definition LogInv (g : bool -> Prop) (E : Event -> Prop)
    (base : list Event) (w : World) : Prop :=
  g (isRunning w) /\ exists new, log w = new ++ base /\ Forall E new.

(** An event that opens a file opens one of [files]. *)
Definition opensOnly (files : list Uri) (e : Event) : Prop :=
  forall b f, e = Performed b (OpenTextDocument f) -> In f files.

(** The value of [isRunning] an event was logged with. *)
Definition eventFlag (e : Event) : bool :=
  match e with Checkpoint b => b | Performed b _ => b end.

Definition hasLines (doc : TextDocument) : Prop := 1 <= docLineCount doc.

Definition storeDocs (w : World) : list TextDocument :=
  map document (editors w).

(** The store holds the documents [docs0] it held at the start, followed by
    those opened since; every document has a line; at least [n] editors
    exist. *)
Definition Ok (docs0 : list TextDocument) (n : nat) (w : World) : Prop :=
  (exists more, storeDocs w = docs0 ++ more) /\
  Forall hasLines (storeDocs w) /\
  (n <= List.length (editors w))%nat.

Definition okPost {A} (docs0 : list TextDocument) (R : A -> World -> Prop)
    (o : Outcome A) (w : World) : Prop :=
  match o with
  | Ret a => R a w
  | Throw => False
  | Brk | Fuel => Ok docs0 0 w
  end.

(** A computation that returns normally and leaves the editors alone. *)
Definition quiet {A} (m : M A) : Prop :=
  forall w, exists a, fst (m w) = Ret a /\ editors (snd (m w)) = editors w.

(** [stop] runs during the second suspension: for a run of [start] that
    is the wait for [openTextDocument] in step 1, after the file search. *)
Definition stopAfterSearch : Env :=
  mkEnv half half_range (fun k b => if Nat.eqb k 1 then false else b)
        (fun _ => 0%nat) [fileA; fileB] sampleContent.

(** Once the suspension [k0] is behind, the flag is [false]. *)
Definition stoppedAfter (k0 : nat) (w : World) : Prop :=
  (k0 < awaits w)%nat -> isRunning w = false.

(** [m] keeps [J], never goes back in the count of suspensions and does
    not reach a loop bound of the model. *)
Definition steady (J : World -> Prop) {A} (m : M A) : Prop :=
  forall w,
    J w ->
    J (snd (m w)) /\
    (awaits w <= awaits (snd (m w)))%nat /\
    fst (m w) <> Fuel.

(** [m] is steady and, when it returns, has been suspended at least
    once. *)
Definition advancing (J : World -> Prop) {A} (m : M A) : Prop :=
  forall w,
    J w ->
    J (snd (m w)) /\
    (awaits w <= awaits (snd (m w)))%nat /\
    fst (m w) <> Fuel /\
    forall a, fst (m w) = Ret a -> (awaits w < awaits (snd (m w)))%nat.

(** Another [start] sets the flag during the first suspension, which for a
    run of [start] is its file search. *)
Definition startDuringSearch : Env :=
  mkEnv half half_range (fun k b => if Nat.eqb k 0 then true else b)
        (fun _ => 0%nat) [fileA; fileB] sampleContent.
(** ** Random indices *)

(** [Math.floor(Math.random() * n)] is an index below [n]. *)
Lemma floor_scaled_range (u : Q) (n : Z) :
  (0 <= u)%Q -> (u < 1)%Q -> 0 < n ->
  0 <= Qfloor (u * inject_Z n) < n.
Proof.
  intros Hlo Hhi Hn.
  assert (Hn' : (0 < inject_Z n)%Q)
    by (change (inject_Z 0 < inject_Z n)%Q; rewrite <- Zlt_Qlt; exact Hn).
  split.
  - change 0 with (Qfloor (inject_Z 0)) at 1.
    rewrite Qfloor_Z. change 0 with (Qfloor 0).
    apply Qfloor_resp_le.
    apply Qmult_le_0_compat; [exact Hlo | apply Qlt_le_weak; exact Hn'].
  - rewrite Zlt_Qlt.
    apply Qle_lt_trans with (u * inject_Z n)%Q; [apply Qfloor_le |].
    setoid_replace (inject_Z n) with (1 * inject_Z n)%Q at 2 by ring.
    apply Qmult_lt_compat_r; assumption.
Qed.

Lemma random_index_range (env : Env) (k : nat) (n : Z) :
  0 < n -> 0 <= Qfloor (random env k * inject_Z n) < n.
Proof.
  intros Hn. destruct (random_range env k) as [Hlo Hhi].
  apply floor_scaled_range; assumption.
Qed.

Lemma index_in_range {A} (xs : list A) (i : Z) :
  0 <= i < Z.of_nat (List.length xs) ->
  exists x, index xs i = Some x /\ In x xs.
Proof.
  intros [Hlo Hhi]. unfold index.
  destruct (Z.ltb_spec i 0) as [Hneg | _]; [lia |].
  destruct (nth_error xs (Z.to_nat i)) as [x |] eqn:Hnth.
  - exists x. split; [reflexivity | eapply nth_error_In; exact Hnth].
  - apply nth_error_None in Hnth. lia.
Qed.

(** ** getRandomFile *)

Lemma availableFiles_In (files : list Uri) (e f : Uri) :
  In f (availableFiles files (Some e)) <->
  In f files /\ fsPath f <> fsPath e.
Proof.
  unfold availableFiles. rewrite filter_In.
  destruct (String.eqb_spec (fsPath f) (fsPath e)) as [Heq | Hne]; simpl.
  - split; [intros [_ H]; discriminate | intros [_ H]; contradiction].
  - split; [intros [H _]; auto | intros [H _]; auto].
Qed.

(** [getRandomFile] always returns; it returns a member of the pool, and
    [undefined] exactly when the pool is empty. *)
Lemma getRandomFile_spec (env : Env) (files : list Uri)
    (exclude : option Uri) (w : World) :
  exists r w',
    getRandomFile env files exclude w = (Ret r, w') /\
    log w' = log w /\
    match r with
    | Some f => In f (availableFiles files exclude)
    | None => availableFiles files exclude = []
    end.
Proof.
  unfold getRandomFile.
  destruct (Z.eqb_spec
              (Z.of_nat (List.length (availableFiles files exclude))) 0)
    as [Hz | Hnz].
  - exists None, w. repeat split.
    destruct (availableFiles files exclude); [reflexivity | discriminate].
  - unfold bind, mathRandom, ret.
    destruct (index_in_range (availableFiles files exclude)
                (Qfloor (random env (draws w) *
                         inject_Z (Z.of_nat (List.length
                                     (availableFiles files exclude))))))
      as [f [Hidx Hin]].
    { apply random_index_range. lia. }
    rewrite Hidx. eexists (Some f), _. repeat split. exact Hin.
Qed.

Lemma filter_keeps_all {A} (p : A -> bool) (l : list A) :
  (forall x, In x l -> p x = true) -> List.filter p l = l.
Proof.
  induction l as [| a l IH]; intros H; simpl; [reflexivity |].
  rewrite (H a (or_introl eq_refl)). f_equal.
  apply IH. intros x Hx. apply H. right. exact Hx.
Qed.

Lemma availableFiles_length_distinct (files : list Uri) (e : Uri) :
  NoDup (map fsPath files) ->
  (List.length files <=
   Datatypes.S (List.length (availableFiles files (Some e))))%nat.
Proof.
  unfold availableFiles.
  induction files as [| a files IH]; intros Hnd; simpl; [lia |].
  inversion Hnd as [| p ps Hnotin Hnd' Heq]; subst.
  destruct (String.eqb_spec (fsPath a) (fsPath e)) as [Heq | Hne]; simpl.
  - rewrite filter_keeps_all; [lia |].
    intros x Hx.
    destruct (String.eqb_spec (fsPath x) (fsPath e)) as [Hxe | _];
      [| reflexivity].
    exfalso. apply Hnotin. rewrite Heq, <- Hxe. apply in_map. exact Hx.
  - specialize (IH Hnd'). lia.
Qed.

(** C1: with an excluded file [e] that is in the non-empty list [F],
    [getRandomFile(F, e)] returns; what it returns is a file of [F] whose
    path is not [e]'s, or [undefined], and then every file of [F] has [e]'s
    path. *)
Theorem getRandomFile_never_excluded (env : Env) (F : list Uri) (e : Uri)
    (w : World) :
  F <> [] -> In e F ->
  exists r w',
    getRandomFile env F (Some e) w = (Ret r, w') /\
    match r with
    | Some f => In f F /\ fsPath f <> fsPath e
    | None => forall f, In f F -> fsPath f = fsPath e
    end.
Proof.
  intros _ _.
  destruct (getRandomFile_spec env F (Some e) w) as [r [w' [Hrun [_ Hr]]]].
  exists r, w'. split; [exact Hrun |].
  destruct r as [f |].
  - apply availableFiles_In. exact Hr.
  - intros f Hf.
    destruct (String.eqb_spec (fsPath f) (fsPath e)) as [Heq | Hne];
      [exact Heq |].
    assert (Hin : In f (availableFiles F (Some e)))
      by (apply availableFiles_In; auto).
    rewrite Hr in Hin. destruct Hin.
Qed.

(** C2, as amended: the pool is the list without the files that have the
    excluded file's path, and what is picked comes from the pool; when the
    paths of the list are pairwise distinct the pool misses at most one
    item of the list. *)
Theorem availableFiles_removes_excluded_path (env : Env) (files : list Uri)
    (e : Uri) (w : World) :
  (forall f, In f (availableFiles files (Some e)) <->
             In f files /\ fsPath f <> fsPath e) /\
  (forall f w', getRandomFile env files (Some e) w = (Ret (Some f), w') ->
                In f (availableFiles files (Some e))) /\
  (NoDup (map fsPath files) ->
   (List.length files - 1 <=
    List.length (availableFiles files (Some e)))%nat).
Proof.
  split; [| split].
  - intros f. apply availableFiles_In.
  - intros f w' Hrun.
    destruct (getRandomFile_spec env files (Some e) w)
      as [r [w1 [Hrun1 [_ Hr]]]].
    rewrite Hrun in Hrun1. inversion Hrun1; subst. exact Hr.
  - intros Hnd. pose proof (availableFiles_length_distinct files e Hnd). lia.
Qed.

(** C2, as stated, fails on a list that holds the excluded path twice:
    both items are removed. *)
Lemma availableFiles_removes_two :
  ~ (forall (files : list Uri) (e : Uri),
       (List.length files - 1 <=
        List.length (availableFiles files (Some e)))%nat).
Proof.
  intros H.
  specialize (H [mkUri "/w/a.ts" ""; mkUri "/w/a.ts" ""]
                (mkUri "/w/a.ts" "")).
  vm_compute in H. lia.
Qed.

(** ** The editor store *)

Lemma replaceAt_lookup {A} (l : list A) (h : nat) (x y : A) :
  nth_error l h = Some x -> nth_error (replaceAt h y l) h = Some y.
Proof.
  revert h. induction l as [| a l IH]; intros [| h] H; simpl in *;
    try discriminate; [reflexivity | apply IH; exact H].
Qed.

Lemma replaceAt_twice {A} (l : list A) (h : nat) (x y : A) :
  replaceAt h y (replaceAt h x l) = replaceAt h y l.
Proof.
  revert h. induction l as [| a l IH]; intros [| h]; simpl;
    try reflexivity. f_equal. apply IH.
Qed.

Lemma newPosition_nonneg (l c : Z) :
  0 <= l -> 0 <= c -> newPosition l c = Some (mkPosition l c).
Proof.
  intros Hl Hc. unfold newPosition.
  destruct (Z.ltb_spec l 0); [lia |].
  destruct (Z.ltb_spec c 0); [lia | reflexivity].
Qed.

Lemma lineAt_in_range (doc : TextDocument) (n : Z) :
  0 <= n < docLineCount doc -> exists text, lineAt doc n = Some text.
Proof.
  unfold docLineCount, lineAt. intros [Hlo Hhi].
  destruct (Z.ltb_spec n 0); [lia |].
  destruct (nth_error (lines doc) (Z.to_nat n)) as [t |] eqn:Hnth.
  - exists t. reflexivity.
  - apply nth_error_None in Hnth. lia.
Qed.

Lemma strlen_nonneg (s : string) : 0 <= strlen s.
Proof. unfold strlen. lia. Qed.

(** ** selectRandomLines *)

Lemma windowStart_range (env : Env) (w : World) (totalLines lineCount : Z) :
  0 <= windowStart env w totalLines lineCount
    <= Z.max 0 (totalLines - lineCount).
Proof.
  unfold windowStart.
  pose proof (random_index_range env (draws w)
                (Z.max 0 (totalLines - lineCount) + 1)) as H.
  lia.
Qed.

(** What [selectRandomLines] does on a document that has lines. *)
Lemma selectRandomLines_run (env : Env) (h : Handle) (lineCount : Z)
    (w : World) (ed : TextEditor) :
  nth_error (editors w) h = Some ed ->
  1 <= docLineCount (document ed) ->
  1 <= lineCount ->
  let total := docLineCount (document ed) in
  let startLine := windowStart env w total lineCount in
  let endLine := windowEnd env w total lineCount in
  exists endText,
    lineAt (document ed) endLine = Some endText /\
    let startPos := mkPosition startLine 0 in
    let endPos := mkPosition endLine (strlen endText) in
    let sel := newSelection startPos endPos in
    let r := newRange startPos endPos in
    selectRandomLines env h lineCount w =
      (Ret (getText (document ed) r),
       mkWorld (isRunning w) (clock w) (awaits w) (Datatypes.S (draws w))
         (replaceAt h (mkEditor (document ed) sel (Some r)) (editors w))
         (Performed (isRunning w) (RevealRange h r)
            :: Performed (isRunning w) (SetSelection h sel) :: log w)).
Proof.
  intros Hed Htotal Hcount total startLine endLine.
  pose proof (windowStart_range env w total lineCount) as Hstart.
  fold startLine in Hstart.
  assert (Hend : 0 <= endLine < total)
    by (unfold endLine, windowEnd; fold startLine; lia).
  destruct (lineAt_in_range (document ed) endLine Hend) as [endText HendText].
  exists endText. split; [exact HendText |].
  intros startPos endPos sel r.
  unfold selectRandomLines, bind at 1, getEditor. rewrite Hed. simpl orThrow.
  unfold ret at 1. fold total.
  destruct (Z.eqb_spec total 0) as [Hz | _]; [lia |].
  unfold bind at 1, mathRandom.
  fold (windowStart env w total lineCount). fold startLine.
  rewrite (newPosition_nonneg startLine 0) by lia.
  unfold bind at 1. simpl orThrow. unfold ret at 1.
  change (Z.min (startLine + lineCount - 1) (total - 1)) with endLine.
  rewrite HendText.
  unfold bind at 1. simpl orThrow. unfold ret at 1.
  rewrite (newPosition_nonneg endLine (strlen endText))
    by (pose proof (strlen_nonneg endText); lia).
  unfold bind at 1. simpl orThrow. unfold ret at 1.
  fold startPos endPos sel r.
  unfold setSelection, revealRange, bind, getEditor, perform, putEditor, ret.
  simpl. rewrite Hed. simpl.
  rewrite (replaceAt_lookup _ _ _ _ Hed). simpl.
  rewrite replaceAt_twice. reflexivity.
Qed.

Lemma selectRandomLines_empty (env : Env) (h : Handle) (lineCount : Z)
    (w : World) (ed : TextEditor) :
  nth_error (editors w) h = Some ed ->
  docLineCount (document ed) = 0 ->
  selectRandomLines env h lineCount w = (Ret EmptyString, w).
Proof.
  intros Hed Hzero.
  unfold selectRandomLines, bind, getEditor. rewrite Hed. simpl orThrow.
  unfold ret at 1. rewrite Hzero. reflexivity.
Qed.

(** C3: on a document with at least one line and a window of at least one
    line, [selectRandomLines] returns, and the selection and the revealed
    range it leaves in the editor run from a line [s] to a line [e] with
    [0 <= s <= e <= totalLines - 1] and [e - s + 1 <= windowSize], whatever
    the random source yields; on a document without lines it returns the
    empty string. *)
Theorem selectRandomLines_within_bounds (env : Env) (h : Handle)
    (windowSize : Z) (w : World) (ed : TextEditor) :
  nth_error (editors w) h = Some ed ->
  1 <= windowSize ->
  let totalLines := docLineCount (document ed) in
  (1 <= totalLines ->
   exists text w' ed' s e,
     selectRandomLines env h windowSize w = (Ret text, w') /\
     nth_error (editors w') h = Some ed' /\
     line (anchor (selection ed')) = s /\
     line (active (selection ed')) = e /\
     option_map (fun r => (line (rstart r), line (rend r))) (revealed ed')
       = Some (s, e) /\
     0 <= s <= e /\ e <= totalLines - 1 /\ e - s + 1 <= windowSize) /\
  (totalLines = 0 ->
   exists w', selectRandomLines env h windowSize w = (Ret EmptyString, w')).
Proof.
  intros Hed Hsize totalLines. split.
  - intros Htotal.
    destruct (selectRandomLines_run env h windowSize w ed Hed Htotal Hsize)
      as [endText [_ Hrun]].
    cbv zeta in Hrun.
    pose proof (windowStart_range env w totalLines windowSize) as Hstart.
    fold totalLines in Hrun.
    set (s := windowStart env w totalLines windowSize) in *.
    set (e := windowEnd env w totalLines windowSize) in *.
    assert (He : e = Z.min (s + windowSize - 1) (totalLines - 1))
      by reflexivity.
    assert (Hord : isBeforeOrEqual (mkPosition s 0)
                     (mkPosition e (strlen endText)) = true).
    { unfold isBeforeOrEqual. simpl.
      pose proof (strlen_nonneg endText).
      destruct (Z.ltb_spec s e); [reflexivity |].
      destruct (Z.eqb_spec s e); [| lia].
      destruct (Z.leb_spec 0 (strlen endText)); [reflexivity | lia]. }
    eexists _, _, _, s, e. split; [exact Hrun |].
    split; [simpl; apply (replaceAt_lookup _ _ _ _ Hed) |].
    simpl. unfold newRange. rewrite Hord. simpl.
    repeat split; lia.
  - intros Hzero. exists w.
    apply (selectRandomLines_empty env h windowSize w ed Hed Hzero).
Qed.

(** C4: on a document of two lines, a window of five lines is the whole
    document: the selection starts on line 0 and ends on line 1, whatever
    the random source yields. *)
Theorem selectRandomLines_two_lines (env : Env) (h : Handle) (w : World)
    (ed : TextEditor) :
  nth_error (editors w) h = Some ed ->
  docLineCount (document ed) = 2 ->
  exists text w' ed',
    selectRandomLines env h 5 w = (Ret text, w') /\
    nth_error (editors w') h = Some ed' /\
    line (anchor (selection ed')) = 0 /\
    line (active (selection ed')) = 1.
Proof.
  intros Hed Htwo.
  destruct (selectRandomLines_run env h 5 w ed Hed) as [endText [_ Hrun]];
    [lia | lia |].
  cbv zeta in Hrun.
  pose proof (windowStart_range env w (docLineCount (document ed)) 5)
    as Hstart.
  eexists _, _, _. split; [exact Hrun |].
  split; [simpl; apply (replaceAt_lookup _ _ _ _ Hed) |].
  simpl. unfold windowEnd. rewrite Htwo in *. lia.
Qed.

(** C10: on a document without lines [selectRandomLines] returns the empty
    string and leaves the world as it was: no selection is set, no range
    is revealed, nothing is asked of the host. *)
Theorem selectRandomLines_no_lines_no_effect (env : Env) (h : Handle)
    (windowSize : Z) (w : World) (ed : TextEditor) :
  nth_error (editors w) h = Some ed ->
  docLineCount (document ed) = 0 ->
  selectRandomLines env h windowSize w = (Ret EmptyString, w).
Proof. apply selectRandomLines_empty. Qed.

(** ** The command handlers *)

(** C5: [start] while running and [stop] while stopped each show one
    informational message and change nothing else: the flag, the clock, the
    editors and the counts of suspensions and random draws are as before,
    no file search is made and no loop is run. *)
Theorem redundant_commands_only_inform (env : Env) (fuel : nat) (w : World) :
  (isRunning w = true ->
   startCommand env fuel w =
     (Ret tt,
      record (Performed true
                (ShowInformationMessage "Budgie is already running!")) w)) /\
  (isRunning w = false ->
   stopCommand w =
     (Ret tt,
      record (Performed false
                (ShowInformationMessage "Budgie is not running.")) w)).
Proof.
  split; intros Hflag.
  - unfold startCommand, bind, readRunning, perform. rewrite Hflag.
    cbv beta iota. rewrite Hflag. reflexivity.
  - unfold stopCommand, bind, readRunning, perform. rewrite Hflag.
    simpl. rewrite Hflag. reflexivity.
Qed.

(** C6: when [start] is invoked while stopped and no file of the workspace
    passes the extension filter, the handler searches, shows the warning
    and returns: it writes no flag (afterwards the flag is what the
    handlers that ran during the search left, [false] if none did), opens
    no editor and runs no loop. *)
Theorem start_on_empty_workspace (env : Env) (fuel : nat) (w : World) :
  isRunning w = false ->
  List.filter hasKnownExtension (foundFiles env) = [] ->
  exists w',
    startCommand env fuel w = (Ret tt, w') /\
    isRunning w' = interference env (awaits w) false /\
    (interference env (awaits w) false = false -> isRunning w' = false) /\
    editors w' = editors w /\
    draws w' = draws w /\
    log w' =
      Performed (interference env (awaits w) false)
                (ShowWarningMessage "No files found in workspace")
        :: Performed false FindFiles :: log w.
Proof.
  intros Hflag Hnone.
  unfold startCommand, bind, readRunning, getWorkspaceFiles, bind, perform,
    suspend, ret.
  rewrite Hflag, Hnone. simpl. rewrite Hflag.
  eexists. split; [reflexivity |]. simpl. repeat split. auto.
Qed.

(** ** scrollUpAndDown *)

Lemma advance_in_range (lineCount : Z) (s : bool * Z) :
  1 <= lineCount ->
  0 <= snd s <= lineCount - 1 ->
  0 <= snd (advance lineCount s) <= lineCount - 1.
Proof.
  intros Hlc Hs. destruct s as [[|] cur]; simpl in *.
  - destruct (Z.geb_spec (cur + 10) (lineCount - 1)); simpl; lia.
  - destruct (Z.leb_spec (cur - 10) 0); simpl; lia.
Qed.

Lemma scrollLines_in_range (lineCount : Z) (n : nat) :
  1 <= lineCount ->
  forall s,
    0 <= snd s <= lineCount - 1 ->
    Forall (fun l => 0 <= l <= lineCount - 1) (scrollLines lineCount n s).
Proof.
  intros Hlc. induction n as [| n IH]; intros s Hs; simpl.
  - constructor.
  - constructor; [exact Hs |].
    apply IH. apply advance_in_range; assumption.
Qed.

Lemma revealedLines_app (l1 l2 : list Event) :
  revealedLines (l1 ++ l2) = revealedLines l1 ++ revealedLines l2.
Proof.
  induction l1 as [| e l1 IH]; simpl; [reflexivity |].
  destruct e as [b | b a]; [exact IH |].
  destruct a; simpl; try exact IH. rewrite IH. reflexivity.
Qed.

Lemma newRange_point (pos : Position) : newRange pos pos = mkRange pos pos.
Proof.
  unfold newRange. destruct (isBeforeOrEqual pos pos); reflexivity.
Qed.

(** One pass of the scroll loop on an editor that exists. *)
Lemma scrollBody_run (env : Env) (h : Handle) (lineCount : Z) (s : bool * Z)
    (w : World) (ed : TextEditor) :
  nth_error (editors w) h = Some ed ->
  0 <= snd s ->
  let pos := mkPosition (snd s) 0 in
  scrollBody env h lineCount s w =
    (Ret (advance lineCount s),
     mkWorld (interference env (awaits w) (isRunning w))
       (clock w + 200 + Z.of_nat (lateness env (awaits w)))
       (Datatypes.S (awaits w)) (draws w)
       (replaceAt h (mkEditor (document ed) (selection ed)
                              (Some (mkRange pos pos))) (editors w))
       (Performed (isRunning w) (Sleep 200)
          :: Performed (isRunning w) (RevealRange h (mkRange pos pos))
          :: log w)).
Proof.
  intros Hed Hcur pos.
  unfold scrollBody, bind at 1.
  rewrite (newPosition_nonneg (snd s) 0) by lia. simpl orThrow.
  unfold ret at 1. fold pos. rewrite newRange_point.
  unfold revealRange, sleep, bind, getEditor, perform, putEditor, elapse,
    suspend, ret.
  simpl. rewrite Hed. simpl. reflexivity.
Qed.

(** The scroll loop returns within its bound, and reveals the lines that
    [advance] yields one after the other. *)
Lemma scrollLoop_run (env : Env) (h : Handle) (lineCount endTime : Z)
    (fuel : nat) :
  forall (s : bool * Z) (w : World) (ed : TextEditor),
    nth_error (editors w) h = Some ed ->
    0 <= snd s ->
    (forall s', 0 <= snd s' -> 0 <= snd (advance lineCount s')) ->
    endTime - clock w <= 200 * Z.of_nat fuel ->
    exists s' w' new n,
      while fuel (scrollCond endTime) (scrollBody env h lineCount) s w
        = (Ret s', w') /\
      log w' = new ++ log w /\
      rev (revealedLines new) = scrollLines lineCount n s.
Proof.
  induction fuel as [| fuel IH]; intros s w ed Hed Hcur Hadv Htime.
  - exists s, w, [], 0%nat. simpl.
    unfold scrollCond, bind, dateNow, ret.
    destruct (Z.ltb_spec (clock w) endTime); [lia |]. auto.
  - simpl. unfold scrollCond, bind at 1, dateNow.
    destruct (Z.ltb_spec (clock w) endTime) as [Hbefore | Hafter].
    + unfold checkRunning. destruct (isRunning w) eqn:Hrun.
      * rewrite (scrollBody_run env h lineCount s _ ed) by assumption.
        simpl.
        set (ed' := mkEditor (document ed) (selection ed)
                      (Some (mkRange (mkPosition (snd s) 0)
                                     (mkPosition (snd s) 0)))).
        match goal with
        | |- context [while fuel _ _ _ ?w2] =>
            destruct (IH (advance lineCount s) w2 ed')
              as [s' [w' [new [n [Hloop [Hlog Hlines]]]]]]
        end.
        { simpl. apply (replaceAt_lookup _ _ _ _ Hed). }
        { apply Hadv. exact Hcur. }
        { exact Hadv. }
        { cbn [clock record]. lia. }
        exists s', w',
          (new ++ [Performed true (Sleep 200);
                   Performed true
                     (RevealRange h (mkRange (mkPosition (snd s) 0)
                                             (mkPosition (snd s) 0)));
                   Checkpoint true]),
          (Datatypes.S n).
        split; [exact Hloop |]. split.
        -- rewrite Hlog. simpl. rewrite Hrun, <- app_assoc. reflexivity.
        -- rewrite revealedLines_app, rev_app_distr. simpl.
           rewrite Hlines. reflexivity.
      * exists s, (record (Checkpoint false) w), [Checkpoint false], 0%nat.
        simpl. auto.
    + exists s, w, [], 0%nat. simpl. auto.
Qed.

Lemma scrollFuel_enough (durationMs : Z) :
  durationMs <= 200 * Z.of_nat (scrollFuel durationMs).
Proof.
  unfold scrollFuel.
  destruct (Z.le_gt_cases 0 durationMs) as [Hpos | Hneg].
  - rewrite Nat2Z.inj_succ, Z2Nat.id by (apply Z.div_pos; lia).
    pose proof (Z.mod_pos_bound durationMs 200 ltac:(lia)).
    pose proof (Z.div_mod durationMs 200 ltac:(lia)). lia.
  - lia.
Qed.

(** C8: on a document with at least one line [scrollUpAndDown] returns, and
    the lines it reveals are, in order, the tracked [currentLine] of the
    successive passes from line 0 going down; each lies within
    [0, lineCount - 1].  A move that reaches or passes the last line is
    clamped to it and turns the direction upward; a move that reaches or
    passes line 0 is clamped to it and turns the direction downward; any
    other move is ten lines in the current direction. *)
Theorem scrollUpAndDown_within_document (env : Env) (h : Handle)
    (durationMs : Z) (w : World) (ed : TextEditor) :
  nth_error (editors w) h = Some ed ->
  1 <= docLineCount (document ed) ->
  let lineCount := docLineCount (document ed) in
  (exists w' new n,
      scrollUpAndDown env h durationMs w = (Ret tt, w') /\
      log w' = new ++ log w /\
      rev (revealedLines new) = scrollLines lineCount n (true, 0) /\
      Forall (fun l => 0 <= l <= lineCount - 1) (revealedLines new)) /\
  (forall cur, lineCount - 1 <= cur + 10 ->
               advance lineCount (true, cur) = (false, lineCount - 1)) /\
  (forall cur, cur - 10 <= 0 ->
               advance lineCount (false, cur) = (true, 0)) /\
  (forall cur, cur + 10 < lineCount - 1 ->
               advance lineCount (true, cur) = (true, cur + 10)) /\
  (forall cur, 0 < cur - 10 ->
               advance lineCount (false, cur) = (false, cur - 10)).
Proof.
  intros Hed Hlc lineCount. split; [| repeat split].
  - destruct (scrollLoop_run env h lineCount (clock w + durationMs)
                (scrollFuel durationMs) (true, 0) w ed Hed)
      as [s' [w' [new [n [Hloop [Hlog Hlines]]]]]].
    + simpl. lia.
    + intros [[|] cur] Hcur; simpl in *.
      * destruct (Z.geb_spec (cur + 10) (lineCount - 1)); simpl; lia.
      * destruct (Z.leb_spec (cur - 10) 0); simpl; lia.
    + pose proof (scrollFuel_enough durationMs). lia.
    + exists w', new, n.
      split.
      * unfold scrollUpAndDown, bind at 1, getEditor. rewrite Hed.
        simpl orThrow. unfold ret at 1. unfold bind at 1, dateNow.
        fold lineCount. unfold bind at 1. rewrite Hloop. reflexivity.
      * split; [exact Hlog |]. split; [exact Hlines |].
        pose proof (scrollLines_in_range lineCount n Hlc (true, 0)
                      ltac:(simpl; lia)) as Hin.
        apply Forall_rev in Hin.
        rewrite <- Hlines, rev_involutive in Hin. exact Hin.
  - intros cur Hcur. simpl.
    destruct (Z.geb_spec (cur + 10) (lineCount - 1)); [reflexivity | lia].
  - intros cur Hcur. simpl.
    destruct (Z.leb_spec (cur - 10) 0); [reflexivity | lia].
  - intros cur Hcur. simpl.
    destruct (Z.geb_spec (cur + 10) (lineCount - 1)); [lia | reflexivity].
  - intros cur Hcur. simpl.
    destruct (Z.leb_spec (cur - 10) 0); [lia | reflexivity].
Qed.

(** ** The checkpoint discipline *)

Lemma phaseOf_plain (new old : list Event) :
  forallb plainEvent new = true ->
  phaseOf old = Some Going ->
  phaseOf (new ++ old) = Some Going.
Proof.
  intros Hplain Hold. induction new as [| e new IH]; simpl; [exact Hold |].
  simpl in Hplain. apply andb_true_iff in Hplain as [He Hnew].
  rewrite (IH Hnew).
  destruct e as [b | b a]; simpl in *; [discriminate |].
  destruct (isSleep a); [discriminate | reflexivity].
Qed.

Lemma phaseOf_suffix (later earlier : list Event) (p : Phase) :
  phaseOf (later ++ earlier) = Some p -> exists q, phaseOf earlier = Some q.
Proof.
  revert p. induction later as [| e later IH]; intros p H; simpl in H.
  - exists p. exact H.
  - destruct (phaseOf (later ++ earlier)) as [q |] eqn:Hq; [| discriminate].
    apply (IH q). reflexivity.
Qed.

Lemma observe_Halted (e : Event) (p : Phase) :
  observe Halted e = Some p -> e = Checkpoint false /\ p = Halted.
Proof.
  destruct e as [[|] | b a]; simpl; intros H; inversion H; auto.
Qed.

(** Once a checkpoint has read [false], only reads of [false] follow. *)
Lemma phaseOf_after_stop (later earlier : list Event) (p : Phase) :
  phaseOf (later ++ Checkpoint false :: earlier) = Some p ->
  p = Halted /\ forall e, In e later -> e = Checkpoint false.
Proof.
  revert p. induction later as [| e later IH]; intros p H; simpl in H.
  - destruct (phaseOf earlier) as [[| |] |]; simpl in H; inversion H;
      split; auto; intros e [].
  - destruct (phaseOf (later ++ Checkpoint false :: earlier)) as [q |] eqn:Hq;
      [| discriminate].
    destruct (IH q eq_refl) as [-> Hall].
    apply observe_Halted in H as [-> ->].
    split; [reflexivity |].
    intros e' [<- | Hin]; [reflexivity | apply Hall; exact Hin].
Qed.

(** What follows a sleep is a checkpoint. *)
Lemma phaseOf_after_sleep (later earlier : list Event) (e : Event)
    (b : bool) (ms : Z) (p : Phase) :
  phaseOf (later ++ e :: Performed b (Sleep ms) :: earlier) = Some p ->
  exists r, e = Checkpoint r.
Proof.
  intros H. apply phaseOf_suffix in H as [q Hq]. simpl in Hq.
  destruct (phaseOf earlier) as [[| |] |]; simpl in Hq; try discriminate.
  destruct e as [r | r a]; [exists r; reflexivity | discriminate].
Qed.

Lemma phaseOf_sleep_last (earlier : list Event) (b : bool) (ms : Z)
    (p : Phase) :
  phaseOf (Performed b (Sleep ms) :: earlier) = Some p -> p = Paused.
Proof.
  simpl. destruct (phaseOf earlier) as [[| |] |]; simpl; intros H;
    inversion H; reflexivity.
Qed.

Lemma phaseOf_Halted_head (new : list Event) :
  phaseOf new = Some Halted ->
  exists earlier, new = Checkpoint false :: earlier.
Proof.
  destruct new as [| e new]; simpl; [discriminate |].
  destruct (phaseOf new) as [[| |] |]; try discriminate;
    destruct e as [[|] | b a]; simpl; try discriminate;
    try (destruct (isSleep a); discriminate);
    intros _; eexists; reflexivity.
Qed.

(** *** Rules *)

Lemma hoare_bind {A B} (P : World -> Prop) (m : M A) (f : A -> M B)
    (R : A -> World -> Prop) (Q : Outcome B -> World -> Prop) :
  hoare P m (fun o w =>
               match o with
               | Ret a => R a w
               | Brk => Q Brk w
               | Throw => Q Throw w
               | Fuel => Q Fuel w
               end) ->
  (forall a, hoare (R a) (f a) Q) ->
  hoare P (bind m f) Q.
Proof.
  intros Hm Hf w HP. specialize (Hm w HP). unfold bind.
  destruct (m w) as [[a | | |] w1]; simpl in *; try exact Hm.
  apply Hf. exact Hm.
Qed.

Lemma hoare_weaken {A} (P P' : World -> Prop) (m : M A)
    (Q Q' : Outcome A -> World -> Prop) :
  hoare P' m Q' ->
  (forall w, P w -> P' w) ->
  (forall o w, Q' o w -> Q o w) ->
  hoare P m Q.
Proof. intros H HP HQ w Hw. apply HQ, H, HP, Hw. Qed.

(** *** Plain computations *)

Lemma plain_ret {A} (a : A) : plain (ret a).
Proof. intros w. exists []. simpl. auto. Qed.

Lemma plain_throw {A} : plain (@throw A).
Proof. intros w. exists []. simpl. auto. Qed.

Lemma plain_orThrow {A} (o : option A) : plain (orThrow o).
Proof. destruct o; [apply plain_ret | apply plain_throw]. Qed.

Lemma plain_bind {A B} (m : M A) (f : A -> M B) :
  plain m -> (forall a, plain (f a)) -> plain (bind m f).
Proof.
  intros Hm Hf w. unfold bind.
  destruct (Hm w) as [new1 [Hlog1 [Hall1 Hout1]]].
  destruct (m w) as [[a | | |] w1]; simpl in *; try contradiction.
  - destruct (Hf a w1) as [new2 [Hlog2 [Hall2 Hout2]]].
    exists (new2 ++ new1). rewrite Hlog2, Hlog1, app_assoc.
    split; [reflexivity |]. split; [| exact Hout2].
    rewrite forallb_app, Hall1, Hall2. reflexivity.
  - exists new1. auto.
Qed.

Lemma plain_perform (a : Action) : isSleep a = false -> plain (perform a).
Proof.
  intros Ha w. exists [Performed (isRunning w) a]. simpl.
  rewrite Ha. auto.
Qed.

Lemma plain_dateNow : plain dateNow.
Proof. intros w. exists []. simpl. auto. Qed.

Lemma plain_getEditor (h : Handle) : plain (getEditor h).
Proof. intros w. unfold getEditor. apply plain_orThrow. Qed.

Lemma plain_putEditor (h : Handle) (ed : TextEditor) : plain (putEditor h ed).
Proof. intros w. exists []. simpl. auto. Qed.

Lemma plain_addEditor (ed : TextEditor) : plain (addEditor ed).
Proof. intros w. exists []. simpl. auto. Qed.

Lemma plain_mathRandom (env : Env) : plain (mathRandom env).
Proof. intros w. exists []. simpl. auto. Qed.

Lemma plain_suspend (env : Env) : plain (suspend env).
Proof. intros w. exists []. simpl. auto. Qed.

Create HintDb plain.
#[local] Hint Resolve plain_ret plain_throw plain_orThrow plain_dateNow
  plain_getEditor plain_putEditor plain_addEditor plain_mathRandom
  plain_suspend : plain.
#[local] Hint Extern 1 (plain (perform _)) =>
  (apply plain_perform; reflexivity) : plain.
#[local] Hint Extern 2 (plain (bind _ _)) =>
  (apply plain_bind; [| intro]) : plain.
#[local] Hint Extern 3 (plain (if ?c then _ else _)) => destruct c : plain.
#[local] Hint Extern 3 (plain (match ?c with _ => _ end)) => destruct c : plain.

Lemma plain_setSelection (h : Handle) (sel : Selection) :
  plain (setSelection h sel).
Proof. unfold setSelection. auto with plain. Qed.

Lemma plain_revealRange (h : Handle) (r : Range) : plain (revealRange h r).
Proof. unfold revealRange. auto with plain. Qed.

#[local] Hint Resolve plain_setSelection plain_revealRange : plain.

Lemma plain_getRandomFile (env : Env) (files : list Uri)
    (exclude : option Uri) :
  plain (getRandomFile env files exclude).
Proof. unfold getRandomFile. auto with plain. Qed.

Lemma plain_openFile (env : Env) (file : Uri) : plain (openFile env file).
Proof. unfold openFile. auto 10 with plain. Qed.

Lemma plain_selectRandomLines (env : Env) (h : Handle) (lineCount : Z) :
  plain (selectRandomLines env h lineCount).
Proof. unfold selectRandomLines. auto 12 with plain. Qed.

Lemma plain_deselectLines (h : Handle) : plain (deselectLines h).
Proof. unfold deselectLines. auto with plain. Qed.

#[local] Hint Resolve plain_getRandomFile plain_openFile
  plain_selectRandomLines plain_deselectLines : plain.

(** *** The phase through the primitive steps *)

Section Discipline.

Variable env : Env.
Variable base : list Event.

Lemma at_plain {A} (m : M A) :
  plain m ->
  hoare (At base Going) m
        (fun o w =>
           match o with
           | Ret _ | Throw => At base Going w
           | Brk | Fuel => False
           end).
Proof.
  intros Hm w [new [Hlog [Hphase _]]].
  destruct (Hm w) as [new' [Hlog' [Hall Hout]]].
  assert (HAt : At base Going (snd (m w))).
  { exists (new' ++ new). rewrite Hlog', Hlog, app_assoc.
    split; [reflexivity |]. split; [| discriminate].
    apply phaseOf_plain; assumption. }
  destruct (fst (m w)); try contradiction; exact HAt.
Qed.

Lemma at_sleep (ms : Z) :
  hoare (At base Going) (sleep env ms)
        (fun o w => o = Ret tt /\ At base Paused w).
Proof.
  intros w [new [Hlog [Hphase _]]]. simpl. split; [reflexivity |].
  exists (Performed (isRunning w) (Sleep ms) :: new). simpl.
  rewrite Hlog, Hphase. simpl. repeat split. discriminate.
Qed.

Lemma at_check :
  hoare (anyPhase base) checkRunning
        (fun o w =>
           match o with
           | Ret true => At base Going w
           | Ret false => At base Halted w
           | _ => False
           end).
Proof.
  intros w HP. simpl.
  assert (Hnew : exists new p,
             log w = new ++ base /\ phaseOf new = Some p /\
             (p = Halted -> isRunning w = false)).
  { destruct HP as [H | [H | H]]; destruct H as [new H]; eauto. }
  destruct Hnew as [new [p [Hlog [Hphase Hflag]]]].
  destruct (isRunning w) eqn:Hrun.
  - exists (Checkpoint true :: new). simpl. rewrite Hlog, Hphase.
    repeat split; [| discriminate].
    destruct p; try reflexivity. discriminate (Hflag eq_refl).
  - exists (Checkpoint false :: new). simpl. rewrite Hlog, Hphase.
    repeat split; [| auto].
    destruct p; reflexivity.
Qed.

(** *** Stepping through a loop body *)

Lemma step_plain {A B} (m : M A) (f : A -> M B)
    (Q : Outcome B -> World -> Prop) :
  plain m ->
  (forall w, At base Going w -> Q Throw w) ->
  (forall a, hoare (At base Going) (f a) Q) ->
  hoare (At base Going) (bind m f) Q.
Proof.
  intros Hm HT Hf.
  apply hoare_bind with (R := fun _ => At base Going); [| exact Hf].
  intros w HP. pose proof (at_plain m Hm w HP) as H.
  destruct (fst (m w)); try contradiction; auto.
Qed.

Lemma step_checkpoint {B} (P : World -> Prop) (k : M B)
    (Q : Outcome B -> World -> Prop) :
  (forall w, P w -> (anyPhase base) w) ->
  (forall w, At base Halted w -> Q Brk w) ->
  hoare (At base Going) k Q ->
  hoare P (r <- checkRunning ;; if negb r then break else k) Q.
Proof.
  intros HP HB Hk.
  apply hoare_bind
    with (R := fun (r : bool) (w : World) =>
                 if r then At base Going w else At base Halted w).
  - intros w Hw. pose proof (at_check w (HP w Hw)) as H.
    destruct (fst (checkRunning w)) as [[|] | | |]; try contradiction; exact H.
  - intros [|]; simpl.
    + exact Hk.
    + intros w Hw. apply HB. exact Hw.
Qed.

Lemma step_sleep_checkpoint {B} (ms : Z) (k : M B)
    (Q : Outcome B -> World -> Prop) :
  (forall w, At base Halted w -> Q Brk w) ->
  hoare (At base Going) k Q ->
  hoare (At base Going)
        (sleep env ms ;; r <- checkRunning ;; if negb r then break else k) Q.
Proof.
  intros HB Hk.
  apply hoare_bind with (R := fun (_ : unit) => At base Paused).
  - intros w Hw. destruct (at_sleep ms w Hw) as [Ho HAt].
    rewrite Ho. exact HAt.
  - intros _. apply step_checkpoint; [| exact HB | exact Hk].
    intros w Hw. right. left. exact Hw.
Qed.

Lemma step_pick {B} (files : list Uri) (k : Uri -> M B)
    (Q : Outcome B -> World -> Prop) :
  (forall w, At base Going w -> files = [] -> Q Brk w) ->
  (forall f, hoare (At base Going) (k f) Q) ->
  hoare (At base Going)
        (r <- getRandomFile env files None ;;
         match r with None => break | Some f => k f end) Q.
Proof.
  intros HB Hk.
  apply hoare_bind
    with (R := fun (r : option Uri) (w : World) =>
                 At base Going w /\ (r = None -> files = [])).
  - intros w Hw.
    pose proof (at_plain _ (plain_getRandomFile env files None) w Hw) as H.
    destruct (getRandomFile_spec env files None w) as [r [w' [Hrun [_ Hr]]]].
    rewrite Hrun in *. simpl in *. split; [exact H |].
    intros ->. exact Hr.
  - intros [f |]; intros w [Hw Hnone].
    + apply Hk. exact Hw.
    + apply HB; auto.
Qed.

(** *** The scroll loop *)

Lemma scrollBody_phase (h : Handle) (lineCount : Z) (s : bool * Z) :
  hoare (At base Going) (scrollBody env h lineCount s)
        (fun o w =>
           match o with
           | Ret _ => At base Paused w
           | Throw => At base Going w
           | Brk | Fuel => False
           end).
Proof.
  unfold scrollBody.
  apply step_plain; [auto with plain | auto |]. intros pos.
  apply step_plain; [auto with plain | auto |]. intros _.
  apply hoare_bind with (R := fun (_ : unit) => At base Paused).
  - intros w Hw. destruct (at_sleep 200 w Hw) as [Ho HAt].
    rewrite Ho. exact HAt.
  - intros _ w Hw. exact Hw.
Qed.

Lemma scrollLoop_phase (h : Handle) (lineCount endTime : Z)
    (fuel : nat) :
  forall s,
    hoare (fun w => At base Going w \/ At base Paused w)
          (while fuel (scrollCond endTime) (scrollBody env h lineCount) s)
          (loopPost base).
Proof.
  induction fuel as [| fuel IH]; intros s w HP;
    unfold hoare in *; simpl;
    unfold scrollCond, bind, dateNow;
    destruct (clock w <? endTime); unfold checkRunning.
  - pose proof (at_check w) as Hc. simpl in Hc.
    destruct (isRunning w); simpl.
    + apply Hc. destruct HP; [left | right; left]; assumption.
    + right. right. apply Hc.
      destruct HP; [left | right; left]; assumption.
  - simpl. destruct HP; [left | right; left]; assumption.
  - pose proof (at_check w) as Hc. simpl in Hc.
    assert (HP' : (anyPhase base) w)
      by (destruct HP; [left | right; left]; assumption).
    specialize (Hc HP').
    destruct (isRunning w); simpl.
    + pose proof (scrollBody_phase h lineCount s _ Hc) as Hb.
      destruct (scrollBody env h lineCount s
                  (record (Checkpoint true) w)) as [[s' | | |] w2];
        simpl in *; try contradiction.
      * apply IH. right. exact Hb.
      * exact Hb.
    + right. right. exact Hc.
  - simpl. destruct HP; [left | right; left]; assumption.
Qed.

Lemma scrollUpAndDown_phase (h : Handle) (durationMs : Z) :
  hoare (At base Going) (scrollUpAndDown env h durationMs) (loopPost base).
Proof.
  unfold scrollUpAndDown.
  apply step_plain; [auto with plain | auto |]. intros ed.
  apply step_plain; [auto with plain | auto |]. intros now.
  apply hoare_bind with (R := fun (_ : bool * Z) => anyPhase base).
  - intros w Hw.
    pose proof (scrollLoop_phase h (docLineCount (document ed))
                  (now + durationMs) (scrollFuel durationMs) (true, 0) w
                  (or_introl Hw)) as H.
    match type of H with
    | _ (fst ?x) _ => destruct x as [[s | | |] w1]
    end; simpl in *; auto.
  - intros _ w Hw. exact Hw.
Qed.

End Discipline.

(** *** The body of the loop and the loop *)

Section LoopDiscipline.

Variable env : Env.
Variable base : list Event.
Variable files : list Uri.

Ltac step :=
  lazymatch goal with
  | |- hoare _ (bind (getRandomFile _ _ None) _) _ =>
      apply step_pick; [intros ? ? ?; right; split; assumption | intros ?]
  | |- hoare _ (bind (sleep _ _) _) _ =>
      apply step_sleep_checkpoint; [intros ? ?; left; assumption |]
  | |- hoare _ (bind checkRunning _) _ =>
      apply (step_checkpoint base);
        [intros ? ?; left; assumption | intros ? ?; left; assumption |]
  | |- hoare _ (bind _ _) _ =>
      apply step_plain;
        [solve [auto with plain] | intros ? ?; assumption | intros ?]
  end;
  cbv zeta.

Lemma cycle_phase :
  hoare (At base Going) (cycle env files) (cyclePost base files).
Proof.
  unfold cycle. repeat step.
  apply hoare_weaken
    with (P' := At base Going) (Q' := loopPost base);
    [apply scrollUpAndDown_phase | auto |].
  intros [[] | | |] w H; simpl in *; auto. contradiction.
Qed.

Lemma runLoop_phase (fuel : nat) :
  hoare (anyPhase base) (runLoop env fuel files) (runPost base files).
Proof.
  unfold runLoop.
  induction fuel as [| fuel IH]; intros w HP; unfold hoare in *; simpl;
    pose proof (at_check base w HP) as Hc; simpl in Hc;
    unfold checkRunning; destruct (isRunning w); simpl;
    try (left; exact Hc); try exact Hc.
  pose proof (cycle_phase _ Hc) as Hb.
  destruct (cycle env files (record (Checkpoint true) w))
    as [[[] | | |] w2]; simpl in *.
  - apply IH. exact Hb.
  - exact Hb.
  - exact Hb.
  - exact Hb.
Qed.

End LoopDiscipline.

Lemma At_start (w : World) : At (log w) Going w.
Proof. exists []. simpl. repeat split. discriminate. Qed.

(** A run of the loop keeps the discipline, and how it ends shows in the
    phase it ends in. *)
Lemma runLoop_discipline (env : Env) (fuel : nat) (files : list Uri)
    (w : World) :
  exists o w' new,
    runLoop env fuel files w = (o, w') /\
    log w' = new ++ log w /\
    match o with
    | Ret _ =>
        phaseOf new = Some Halted \/ (phaseOf new = Some Going /\ files = [])
    | Brk => False
    | Throw | Fuel => phaseOf new = Some Going
    end.
Proof.
  pose proof (runLoop_phase env (log w) files fuel w
                (or_introl (At_start w))) as H.
  destruct (runLoop env fuel files w) as [o w'] eqn:Hrun. simpl in H.
  exists o, w'.
  assert (Hnew : forall p, At (log w) p w' ->
                 exists new, log w' = new ++ log w /\ phaseOf new = Some p).
  { intros p [new [Hlog [Hp _]]]. exists new. auto. }
  destruct o as [[] | | |]; simpl in H.
  - destruct H as [H | [H Hfiles]]; apply Hnew in H as [new [Hlog Hp]];
      exists new; auto.
  - contradiction.
  - apply Hnew in H as [new [Hlog Hp]]. exists new. auto.
  - apply Hnew in H as [new [Hlog Hp]]. exists new. auto.
Qed.

(** C7, as amended: a run of the loop logs, newest first, the events [new];
    after a checkpoint that read [false] the loop returns and logs nothing
    but further reads of [false]; what follows a sleep is a checkpoint, and
    no run ends on a sleep. *)
Theorem runLoop_stops_at_checkpoints (env : Env) (fuel : nat)
    (files : list Uri) (w : World) :
  exists o w' new,
    runLoop env fuel files w = (o, w') /\
    log w' = new ++ log w /\
    (forall later earlier,
        new = later ++ Checkpoint false :: earlier ->
        o = Ret tt /\ forall e, In e later -> e = Checkpoint false) /\
    (forall later e b ms earlier,
        new = later ++ e :: Performed b (Sleep ms) :: earlier ->
        exists r, e = Checkpoint r) /\
    (forall b ms earlier, new <> Performed b (Sleep ms) :: earlier).
Proof.
  destruct (runLoop_discipline env fuel files w)
    as [o [w' [new [Hrun [Hlog Hend]]]]].
  exists o, w', new. split; [exact Hrun |]. split; [exact Hlog |].
  assert (Hp : exists p, phaseOf new = Some p /\ p <> Paused /\
                         (p = Halted -> o = Ret tt)).
  { destruct o as [[] | | |].
    - destruct Hend as [H | [H _]]; eexists; (split; [exact H |]);
        split; auto; discriminate.
    - contradiction.
    - eexists; split; [exact Hend |]; split; discriminate.
    - eexists; split; [exact Hend |]; split; discriminate. }
  destruct Hp as [p [Hp [Hnot Hhalt]]].
  split; [| split].
  - intros later earlier ->.
    destruct (phaseOf_after_stop later earlier p Hp) as [-> Hall]. auto.
  - intros later e b ms earlier ->.
    apply (phaseOf_after_sleep later earlier e b ms p Hp).
  - intros b ms earlier ->.
    apply Hnot. apply (phaseOf_sleep_last earlier b ms p Hp).
Qed.

(** C7, as stated, fails: when [stop] is invoked while step 1 waits for its
    file to open, the loop still sets the selection, reveals it and sleeps
    with the flag [false] before it reaches the next checkpoint. *)
Lemma runLoop_acts_after_stop :
  ~ (forall (env : Env) (fuel : nat) (files : list Uri) (w : World)
            (new : list Event),
        log (snd (runLoop env fuel files w)) = new ++ log w ->
        neverActsWhileStopped new).
Proof.
  intros H.
  pose proof (H stopDuringOpen 1%nat [fileA; fileB] (startWorld true)
                (log (snd (runLoop stopDuringOpen 1 [fileA; fileB]
                             (startWorld true))))
                (eq_sym (app_nil_r _))) as Hnever.
  apply (Hnever (SetSelection 0%nat
                   (newSelection (mkPosition 0 0) (mkPosition 1 2)))).
  vm_compute. right. right. right. left. reflexivity.
Qed.

(** C9: from a list that is not empty a pick without exclusion returns a
    file of the list, so a pass of the loop body breaks, and the loop
    returns, only at a checkpoint that has just read [false]; a pick
    without exclusion returns [undefined] only from the empty list. *)
Theorem nonempty_files_never_exhausted (env : Env) (fuel : nat)
    (files : list Uri) (w : World) :
  (files <> [] ->
   (exists f w',
       getRandomFile env files None w = (Ret (Some f), w') /\ In f files) /\
   (forall w', cycle env files w = (Brk, w') ->
               exists earlier, log w' = Checkpoint false :: earlier) /\
   (forall w', runLoop env fuel files w = (Ret tt, w') ->
               exists earlier, log w' = Checkpoint false :: earlier)) /\
  (forall w', getRandomFile env files None w = (Ret None, w') ->
              files = []).
Proof.
  split.
  - intros Hne. split; [| split].
    + destruct (getRandomFile_spec env files None w)
        as [[f |] [w' [Hrun [_ Hr]]]]; simpl in Hr.
      * exists f, w'. auto.
      * contradiction.
    + intros w' Hrun.
      pose proof (cycle_phase env (log w) files w (At_start w)) as H.
      rewrite Hrun in H. simpl in H.
      destruct H as [[new [Hlog [Hp _]]] | [_ Hnil]]; [| contradiction].
      apply phaseOf_Halted_head in Hp as [earlier ->].
      exists (earlier ++ log w). exact Hlog.
    + intros w' Hrun.
      destruct (runLoop_discipline env fuel files w)
        as [o [w1 [new [Hrun1 [Hlog Hend]]]]].
      rewrite Hrun in Hrun1. inversion Hrun1; subst o w1.
      destruct Hend as [Hp | [_ Hnil]]; [| contradiction].
      apply phaseOf_Halted_head in Hp as [earlier ->].
      exists (earlier ++ log w). exact Hlog.
  - intros w' Hrun.
    destruct (getRandomFile_spec env files None w)
      as [r [w1 [Hrun1 [_ Hr]]]].
    rewrite Hrun in Hrun1. inversion Hrun1; subst. exact Hr.
Qed.

(** ** The theorems at concrete inputs *)

Lemma getRandomFile_never_excluded_witness :
  [fileA; fileB] <> [] /\
  In fileA [fileA; fileB] /\
  exists r w',
    getRandomFile calmEnv [fileA; fileB] (Some fileA) (startWorld true)
      = (Ret r, w') /\
    match r with
    | Some f => In f [fileA; fileB] /\ fsPath f <> fsPath fileA
    | None => forall f, In f [fileA; fileB] -> fsPath f = fsPath fileA
    end.
Proof.
  assert (Hne : [fileA; fileB] <> []) by discriminate.
  assert (Hin : In fileA [fileA; fileB]) by (left; reflexivity).
  split; [exact Hne |]. split; [exact Hin |].
  exact (getRandomFile_never_excluded calmEnv [fileA; fileB] fileA
           (startWorld true) Hne Hin).
Defined.

Lemma availableFiles_removes_excluded_path_witness :
  NoDup (map fsPath [fileA; fileB]) /\
  (List.length [fileA; fileB] - 1 <=
   List.length (availableFiles [fileA; fileB] (Some fileA)))%nat.
Proof.
  assert (Hnd : NoDup (map fsPath [fileA; fileB])).
  { simpl. constructor.
    - intros [H | []]. discriminate H.
    - constructor; [intros [] | constructor]. }
  split; [exact Hnd |].
  exact (proj2 (proj2 (availableFiles_removes_excluded_path calmEnv
                         [fileA; fileB] fileA (startWorld true))) Hnd).
Defined.

Lemma selectRandomLines_within_bounds_witness :
  nth_error (editors (editorWorld fourLines)) 0 = Some (freshEditor fourLines)
  /\ 1 <= 3 /\ 1 <= docLineCount fourLines /\
  exists text w' ed' s e,
    selectRandomLines calmEnv 0%nat 3 (editorWorld fourLines)
      = (Ret text, w') /\
    nth_error (editors w') 0 = Some ed' /\
    line (anchor (selection ed')) = s /\
    line (active (selection ed')) = e /\
    option_map (fun r => (line (rstart r), line (rend r))) (revealed ed')
      = Some (s, e) /\
    0 <= s <= e /\ e <= docLineCount fourLines - 1 /\ e - s + 1 <= 3.
Proof.
  assert (Hsize : 1 <= 3) by lia.
  assert (Htotal : 1 <= docLineCount fourLines) by (vm_compute; discriminate).
  split; [reflexivity |]. split; [exact Hsize |]. split; [exact Htotal |].
  exact (proj1 (selectRandomLines_within_bounds calmEnv 0%nat 3
                  (editorWorld fourLines) (freshEditor fourLines)
                  eq_refl Hsize) Htotal).
Defined.

Lemma selectRandomLines_two_lines_witness :
  nth_error (editors (editorWorld twoLines)) 0 = Some (freshEditor twoLines)
  /\ docLineCount twoLines = 2 /\
  exists text w' ed',
    selectRandomLines calmEnv 0%nat 5 (editorWorld twoLines)
      = (Ret text, w') /\
    nth_error (editors w') 0 = Some ed' /\
    line (anchor (selection ed')) = 0 /\
    line (active (selection ed')) = 1.
Proof.
  split; [reflexivity |]. split; [reflexivity |].
  exact (selectRandomLines_two_lines calmEnv 0%nat (editorWorld twoLines)
           (freshEditor twoLines) eq_refl eq_refl).
Defined.

Lemma selectRandomLines_no_lines_no_effect_witness :
  nth_error (editors (editorWorld noLines)) 0 = Some (freshEditor noLines)
  /\ docLineCount noLines = 0 /\
  selectRandomLines calmEnv 0%nat 3 (editorWorld noLines)
    = (Ret EmptyString, editorWorld noLines).
Proof.
  split; [reflexivity |]. split; [reflexivity |].
  exact (selectRandomLines_no_lines_no_effect calmEnv 0%nat 3
           (editorWorld noLines) (freshEditor noLines) eq_refl eq_refl).
Defined.

Lemma redundant_commands_only_inform_witness :
  isRunning (startWorld true) = true /\
  isRunning (startWorld false) = false /\
  startCommand calmEnv 3 (startWorld true) =
    (Ret tt,
     record (Performed true
               (ShowInformationMessage "Budgie is already running!"))
            (startWorld true)) /\
  stopCommand (startWorld false) =
    (Ret tt,
     record (Performed false
               (ShowInformationMessage "Budgie is not running."))
            (startWorld false)).
Proof.
  split; [reflexivity |]. split; [reflexivity |]. split.
  - exact (proj1 (redundant_commands_only_inform calmEnv 3
                    (startWorld true)) eq_refl).
  - exact (proj2 (redundant_commands_only_inform calmEnv 3
                    (startWorld false)) eq_refl).
Defined.

Lemma start_on_empty_workspace_witness :
  isRunning (startWorld false) = false /\
  List.filter hasKnownExtension (foundFiles emptyEnv) = [] /\
  exists w',
    startCommand emptyEnv 3 (startWorld false) = (Ret tt, w') /\
    isRunning w' = false /\
    editors w' = [] /\
    log w' =
      [Performed false (ShowWarningMessage "No files found in workspace");
       Performed false FindFiles].
Proof.
  split; [reflexivity |]. split; [reflexivity |].
  destruct (start_on_empty_workspace emptyEnv 3 (startWorld false)
              eq_refl eq_refl)
    as [w' [Hrun [Hflag [_ [Heds [_ Hlog]]]]]].
  exists w'. repeat split; assumption.
Defined.

Lemma scrollUpAndDown_within_document_witness :
  nth_error (editors (editorWorld fourLines)) 0 = Some (freshEditor fourLines)
  /\ 1 <= docLineCount fourLines /\
  exists w' new n,
    scrollUpAndDown calmEnv 0%nat 5000 (editorWorld fourLines)
      = (Ret tt, w') /\
    log w' = new ++ log (editorWorld fourLines) /\
    rev (revealedLines new) = scrollLines (docLineCount fourLines) n (true, 0)
    /\ Forall (fun l => 0 <= l <= docLineCount fourLines - 1)
              (revealedLines new).
Proof.
  assert (Htotal : 1 <= docLineCount fourLines) by (vm_compute; discriminate).
  split; [reflexivity |]. split; [exact Htotal |].
  exact (proj1 (scrollUpAndDown_within_document calmEnv 0%nat 5000
                  (editorWorld fourLines) (freshEditor fourLines)
                  eq_refl Htotal)).
Defined.

Lemma nonempty_files_never_exhausted_witness :
  [fileA; fileB] <> [] /\
  (exists f w',
      getRandomFile calmEnv [fileA; fileB] None (startWorld true)
        = (Ret (Some f), w') /\ In f [fileA; fileB]) /\
  (forall w',
      runLoop stopDuringOpen 1 [fileA; fileB] (startWorld true) = (Ret tt, w')
      -> exists earlier, log w' = Checkpoint false :: earlier) /\
  (getRandomFile calmEnv [] None (startWorld true)
     = (Ret None, startWorld true) /\ @nil Uri = []).
Proof.
  assert (Hne : [fileA; fileB] <> []) by discriminate.
  split; [exact Hne |]. split; [| split].
  - exact (proj1 (proj1 (nonempty_files_never_exhausted calmEnv 1
                           [fileA; fileB] (startWorld true)) Hne)).
  - exact (proj2 (proj2 (proj1 (nonempty_files_never_exhausted stopDuringOpen
                                  1 [fileA; fileB] (startWorld true)) Hne))).
  - split; [reflexivity |].
    exact (proj2 (nonempty_files_never_exhausted calmEnv 1 []
                    (startWorld true)) (startWorld true) eq_refl).
Defined.

(** * Further properties of the extension *)

(** ** Strings *)

Lemma length_append (a b : string) :
  String.length (a ++ b) = (String.length a + String.length b)%nat.
Proof.
  induction a as [| c a IH]; simpl; [reflexivity |].
  rewrite IH. reflexivity.
Qed.

Lemma substring_whole (s : string) : substring 0 (String.length s) s = s.
Proof.
  induction s as [| c s IH]; simpl; [reflexivity |].
  rewrite IH. reflexivity.
Qed.

Lemma substring_past_prefix (pre s : string) (k : nat) :
  substring (String.length pre) k (pre ++ s) = substring 0 k s.
Proof. induction pre as [| c pre IH]; simpl; [reflexivity | exact IH]. Qed.

Lemma substring_split (s : string) (m : nat) :
  (m <= String.length s)%nat ->
  s = (substring 0 m s ++ substring m (String.length s - m) s)%string.
Proof.
  revert m. induction s as [| c s IH]; intros m Hm; simpl in *.
  - destruct m; reflexivity.
  - destruct m as [| m]; simpl.
    + rewrite substring_whole. reflexivity.
    + rewrite <- IH by lia. reflexivity.
Qed.

(** [s.endsWith(suffix)] holds exactly when [s] is some text followed by
    [suffix]. *)
Lemma endsWith_spec (s suffix : string) :
  endsWith s suffix = true <-> exists stem, s = (stem ++ suffix)%string.
Proof.
  unfold endsWith. split.
  - intros H. apply andb_true_iff in H as [Hle Heq].
    apply Nat.leb_le in Hle. apply String.eqb_eq in Heq.
    pose proof (substring_split s
                  (String.length s - String.length suffix) ltac:(lia)) as Hs.
    replace (String.length s - (String.length s - String.length suffix))%nat
      with (String.length suffix) in Hs by lia.
    rewrite Heq in Hs. eexists. exact Hs.
  - intros [stem ->]. rewrite length_append.
    apply andb_true_iff. split; [apply Nat.leb_le; lia |].
    replace (String.length stem + String.length suffix
             - String.length suffix)%nat
      with (String.length stem) by lia.
    rewrite substring_past_prefix, substring_whole.
    apply String.eqb_refl.
Qed.

Lemma toLowerCase_append (a b : string) :
  toLowerCase (a ++ b) = (toLowerCase a ++ toLowerCase b)%string.
Proof.
  induction a as [| c a IH]; simpl; [reflexivity |].
  rewrite IH. reflexivity.
Qed.

(** ** getWorkspaceFiles *)

Lemma hasKnownExtension_spec (file : Uri) :
  hasKnownExtension file = true <->
  exists stem ext,
    In ext knownExtensions /\
    toLowerCase (fsPath file) = (stem ++ ext)%string.
Proof.
  unfold hasKnownExtension. split.
  - intros H.
    repeat (apply orb_true_iff in H as [H | H]);
      apply endsWith_spec in H as [stem Hstem];
      exists stem; eexists; (split; [| exact Hstem]);
      unfold knownExtensions; simpl; auto 12.
  - intros [stem [ext [Hin Hpath]]].
    assert (Hends : endsWith (toLowerCase (fsPath file)) ext = true)
      by (apply endsWith_spec; exists stem; exact Hpath).
    unfold knownExtensions in Hin. simpl in Hin.
    repeat (destruct Hin as [<- | Hin];
            [rewrite Hends; repeat rewrite orb_true_r; reflexivity |]).
    destruct Hin.
Qed.

(** X1: [getWorkspaceFiles] searches once, and returns the files of the
    search result whose path, in lower case, ends with one of the nine
    known extensions; nothing else and nothing twice over. *)
Theorem getWorkspaceFiles_known_extensions (env : Env) (w : World) :
  exists files w',
    getWorkspaceFiles env w = (Ret files, w') /\
    log w' = Performed (isRunning w) FindFiles :: log w /\
    (forall f,
        In f files <->
        In f (foundFiles env) /\
        exists stem ext,
          In ext knownExtensions /\
          toLowerCase (fsPath f) = (stem ++ ext)%string) /\
    (NoDup (foundFiles env) -> NoDup files).
Proof.
  eexists _, _. split; [reflexivity |]. split; [reflexivity |]. split.
  - intros f. rewrite filter_In, hasKnownExtension_spec. reflexivity.
  - apply NoDup_filter.
Qed.

(** X2: the extension test ignores case: a path that ends with a known
    extension written in any mix of upper and lower case passes. *)
Theorem hasKnownExtension_ignores_case (stem ext q : string) :
  In (toLowerCase ext) knownExtensions ->
  hasKnownExtension (mkUri (stem ++ ext) q) = true.
Proof.
  intros Hin. apply hasKnownExtension_spec.
  exists (toLowerCase stem), (toLowerCase ext).
  split; [exact Hin |]. simpl. apply toLowerCase_append.
Qed.

(** ** getRandomFile, further *)

Lemma floor_fraction_scaled (i : Z) (p : positive) :
  Qfloor ((i # p) * inject_Z (Z.pos p)) = i.
Proof.
  transitivity (Qfloor (inject_Z i)); [| apply Qfloor_Z].
  apply Qfloor_comp.
  unfold Qeq, Qmult, inject_Z. cbn [Qnum Qden].
  rewrite Pos.mul_1_r. ring.
Qed.

(** X3: every file of the pool can be picked: for each there is a value of
    [Math.random()] for which [getRandomFile] returns it. *)
Theorem getRandomFile_reaches_every_candidate (files : list Uri)
    (exclude : option Uri) (f : Uri) :
  In f (availableFiles files exclude) ->
  exists env,
    forall w, exists w',
      getRandomFile env files exclude w = (Ret (Some f), w').
Proof.
  intros Hin.
  destruct (In_nth_error _ _ Hin) as [i Hi].
  assert (Hlt : (i < List.length (availableFiles files exclude))%nat)
    by (apply nth_error_Some; rewrite Hi; discriminate).
  remember (availableFiles files exclude) as pool eqn:Hpool.
  destruct pool as [| x pool]; [simpl in Hlt; lia |].
  assert (Hrange : 0 <= Z.of_nat i < Z.pos (Pos.of_succ_nat (List.length pool)))
    by (simpl in Hlt; lia).
  exists (fixedEnv (Z.of_nat i) (Pos.of_succ_nat (List.length pool)) Hrange).
  intros w. unfold getRandomFile. rewrite <- Hpool.
  change (Z.of_nat (List.length (x :: pool)))
    with (Z.pos (Pos.of_succ_nat (List.length pool))).
  change (Z.pos (Pos.of_succ_nat (List.length pool)) =? 0) with false.
  unfold bind, mathRandom, ret, fixedEnv. cbn [random]. unfold fixedRandom.
  rewrite floor_fraction_scaled.
  unfold index. destruct (Z.ltb_spec (Z.of_nat i) 0); [lia |].
  rewrite Nat2Z.id, Hi. eexists. reflexivity.
Qed.

(** X4: [getRandomFile] asks nothing of the host and touches neither the
    flag, the clock nor the editors; it draws one random number when the
    pool has a file and none when the pool is empty. *)
Theorem getRandomFile_only_draws (env : Env) (files : list Uri)
    (exclude : option Uri) (w : World) :
  exists r w',
    getRandomFile env files exclude w = (Ret r, w') /\
    log w' = log w /\ isRunning w' = isRunning w /\ clock w' = clock w /\
    awaits w' = awaits w /\ editors w' = editors w /\
    draws w' =
      match availableFiles files exclude with
      | [] => draws w
      | _ :: _ => Datatypes.S (draws w)
      end.
Proof.
  unfold getRandomFile.
  destruct (availableFiles files exclude) as [| x pool] eqn:Hpool.
  - exists None, w. simpl. repeat split.
  - change (Z.of_nat (List.length (x :: pool)))
      with (Z.pos (Pos.of_succ_nat (List.length pool))).
    change (Z.pos (Pos.of_succ_nat (List.length pool)) =? 0) with false.
    unfold bind, mathRandom, ret.
    eexists _, _. split; [reflexivity |]. simpl. repeat split.
Qed.


(** ** selectRandomLines and deselectLines, further *)

Lemma window_in_order (s e : Z) (endText : string) :
  s <= e ->
  newRange (mkPosition s 0) (mkPosition e (strlen endText)) =
  mkRange (mkPosition s 0) (mkPosition e (strlen endText)).
Proof.
  intros Hle. unfold newRange, isBeforeOrEqual. simpl.
  pose proof (strlen_nonneg endText).
  destruct (Z.ltb_spec s e); [reflexivity |].
  destruct (Z.eqb_spec s e); [| lia].
  destruct (Z.leb_spec 0 (strlen endText)); [reflexivity | lia].
Qed.

(** X6: on a document with lines, the selection [selectRandomLines] makes
    covers whole lines: it starts at column 0 and ends at the end of its
    last line.  It has exactly [windowSize] lines when the document has
    that many, and is the whole document otherwise.  The text returned is
    the text of the selection, and the document is not changed. *)
Theorem selectRandomLines_whole_lines (env : Env) (h : Handle)
    (windowSize : Z) (w : World) (ed : TextEditor) :
  nth_error (editors w) h = Some ed ->
  1 <= windowSize ->
  1 <= docLineCount (document ed) ->
  exists text w' ed' endText,
    selectRandomLines env h windowSize w = (Ret text, w') /\
    nth_error (editors w') h = Some ed' /\
    document ed' = document ed /\
    character (anchor (selection ed')) = 0 /\
    lineAt (document ed) (line (active (selection ed'))) = Some endText /\
    character (active (selection ed')) = strlen endText /\
    (windowSize <= docLineCount (document ed) ->
     line (active (selection ed')) - line (anchor (selection ed')) + 1
       = windowSize) /\
    (docLineCount (document ed) <= windowSize ->
     line (anchor (selection ed')) = 0 /\
     line (active (selection ed')) = docLineCount (document ed) - 1) /\
    text = getText (document ed)
             (mkRange (anchor (selection ed')) (active (selection ed'))).
Proof.
  intros Hed Hsize Htotal.
  destruct (selectRandomLines_run env h windowSize w ed Hed Htotal Hsize)
    as [endText [HendText Hrun]].
  cbv zeta in Hrun.
  pose proof (windowStart_range env w (docLineCount (document ed))
                windowSize) as Hstart.
  set (total := docLineCount (document ed)) in *.
  set (s := windowStart env w total windowSize) in *.
  set (e := windowEnd env w total windowSize) in *.
  assert (He : e = Z.min (s + windowSize - 1) (total - 1)) by reflexivity.
  rewrite (window_in_order s e endText) in Hrun by lia.
  eexists _, _, _, endText. split; [exact Hrun |].
  split; [simpl; apply (replaceAt_lookup _ _ _ _ Hed) |].
  simpl. repeat split; try assumption; lia.
Qed.

(** X7: every admissible first line can be selected: for each line [s0]
    from 0 to [max(0, totalLines - windowSize)] there is a value of
    [Math.random()] for which the selection starts on [s0]. *)
Theorem selectRandomLines_reaches_every_start (h : Handle)
    (windowSize : Z) (w : World) (ed : TextEditor) (s0 : Z) :
  nth_error (editors w) h = Some ed ->
  1 <= windowSize ->
  1 <= docLineCount (document ed) ->
  0 <= s0 <= Z.max 0 (docLineCount (document ed) - windowSize) ->
  exists env text w' ed',
    selectRandomLines env h windowSize w = (Ret text, w') /\
    nth_error (editors w') h = Some ed' /\
    line (anchor (selection ed')) = s0.
Proof.
  intros Hed Hsize Htotal Hs0.
  set (maxStart := Z.max 0 (docLineCount (document ed) - windowSize)) in *.
  assert (Hrange : 0 <= s0 < Z.pos (Z.to_pos (maxStart + 1)))
    by (rewrite Z2Pos.id; lia).
  exists (fixedEnv s0 (Z.to_pos (maxStart + 1)) Hrange).
  destruct (selectRandomLines_run (fixedEnv s0 (Z.to_pos (maxStart + 1)) Hrange)
              h windowSize w ed Hed Htotal Hsize)
    as [endText [_ Hrun]].
  cbv zeta in Hrun.
  eexists _, _, _. split; [exact Hrun |].
  split; [simpl; apply (replaceAt_lookup _ _ _ _ Hed) |].
  simpl. unfold windowStart, fixedEnv. cbn [random]. unfold fixedRandom.
  fold maxStart.
  replace (inject_Z (maxStart + 1))
    with (inject_Z (Z.pos (Z.to_pos (maxStart + 1))))
    by (rewrite Z2Pos.id; [reflexivity | lia]).
  apply floor_fraction_scaled.
Qed.

(** What [deselectLines] does on an editor that exists. *)
Lemma deselectLines_run (h : Handle) (w : World) (ed : TextEditor) :
  nth_error (editors w) h = Some ed ->
  let pos := active (selection ed) in
  deselectLines h w =
    (Ret tt,
     mkWorld (isRunning w) (clock w) (awaits w) (draws w)
       (replaceAt h (mkEditor (document ed) (newSelection pos pos)
                              (revealed ed)) (editors w))
       (Performed (isRunning w) (SetSelection h (newSelection pos pos))
          :: log w)).
Proof.
  intros Hed pos.
  unfold deselectLines, setSelection, bind, getEditor, perform, putEditor.
  rewrite Hed. simpl. rewrite Hed. simpl. reflexivity.
Qed.

(** X8: [deselectLines] collapses the selection onto its active end and
    keeps the document and the revealed range; a second call changes no
    editor. *)
Theorem deselectLines_collapses (h : Handle) (w : World) (ed : TextEditor) :
  nth_error (editors w) h = Some ed ->
  exists w' ed',
    deselectLines h w = (Ret tt, w') /\
    nth_error (editors w') h = Some ed' /\
    anchor (selection ed') = active (selection ed) /\
    active (selection ed') = active (selection ed) /\
    document ed' = document ed /\
    revealed ed' = revealed ed /\
    editors (snd (deselectLines h w')) = editors w'.
Proof.
  intros Hed.
  pose proof (deselectLines_run h w ed Hed) as Hrun. cbv zeta in Hrun.
  eexists _, _. split; [exact Hrun |].
  assert (Hed' : nth_error
                   (replaceAt h
                      (mkEditor (document ed)
                         (newSelection (active (selection ed))
                                       (active (selection ed)))
                         (revealed ed)) (editors w)) h
                 = Some (mkEditor (document ed)
                           (newSelection (active (selection ed))
                                         (active (selection ed)))
                           (revealed ed)))
    by apply (replaceAt_lookup _ _ _ _ Hed).
  split; [exact Hed' |]. simpl. repeat split.
  match goal with
  | |- editors (snd (deselectLines h ?w1)) = _ =>
      rewrite (deselectLines_run h w1 _ Hed')
  end.
  simpl. apply replaceAt_twice.
Qed.


(** ** scrollUpAndDown, further *)

Lemma map_replaceAt {A B} (f : A -> B) (l : list A) (h : nat) (x y : A) :
  nth_error l h = Some x -> f y = f x ->
  map f (replaceAt h y l) = map f l.
Proof.
  revert h. induction l as [| a l IH]; intros [| h] Hx Hf; simpl in *;
    try discriminate.
  - inversion Hx; subst. rewrite Hf. reflexivity.
  - rewrite (IH h Hx Hf). reflexivity.
Qed.

Lemma advance_nonneg (lineCount : Z) (s : bool * Z) :
  1 <= lineCount -> 0 <= snd s -> 0 <= snd (advance lineCount s).
Proof.
  intros Hlc Hs. destruct s as [[|] cur]; simpl in *.
  - destruct (Z.geb_spec (cur + 10) (lineCount - 1)); simpl; lia.
  - destruct (Z.leb_spec (cur - 10) 0); simpl; lia.
Qed.

(** How the scroll loop ends, and what it leaves alone. *)
Lemma scrollLoop_exit (env : Env) (h : Handle) (lineCount endTime : Z)
    (fuel : nat) :
  1 <= lineCount ->
  forall (s : bool * Z) (w : World) (ed : TextEditor),
    nth_error (editors w) h = Some ed ->
    0 <= snd s ->
    endTime - clock w <= 200 * Z.of_nat fuel ->
    exists s' w' new,
      while fuel (scrollCond endTime) (scrollBody env h lineCount) s w
        = (Ret s', w') /\
      log w' = new ++ log w /\
      (List.length (revealedLines new) <= fuel)%nat /\
      (endTime <= clock w' \/ isRunning w' = false) /\
      storeDocs w' = storeDocs w /\
      map selection (editors w') = map selection (editors w) /\
      draws w' = draws w.
Proof.
  intros Hlc.
  induction fuel as [| fuel IH]; intros s w ed Hed Hcur Htime.
  - exists s, w, []. simpl.
    unfold scrollCond, bind, dateNow, ret.
    destruct (Z.ltb_spec (clock w) endTime); [lia |].
    repeat split; auto.
  - simpl. unfold scrollCond, bind at 1, dateNow.
    destruct (Z.ltb_spec (clock w) endTime) as [Hbefore | Hafter].
    + unfold checkRunning. destruct (isRunning w) eqn:Hrun.
      * rewrite (scrollBody_run env h lineCount s _ ed) by assumption.
        simpl.
        set (ed' := mkEditor (document ed) (selection ed)
                      (Some (mkRange (mkPosition (snd s) 0)
                                     (mkPosition (snd s) 0)))).
        match goal with
        | |- context [while fuel _ _ _ ?w2] =>
            destruct (IH (advance lineCount s) w2 ed')
              as [s' [w' [new [Hloop [Hlog [Hcount [Hexit
                   [Hdocs [Hsel Hdraws]]]]]]]]]
        end.
        { simpl. apply (replaceAt_lookup _ _ _ _ Hed). }
        { apply advance_nonneg; assumption. }
        { cbn [clock record]. lia. }
        exists s', w',
          (new ++ [Performed true (Sleep 200);
                   Performed true
                     (RevealRange h (mkRange (mkPosition (snd s) 0)
                                             (mkPosition (snd s) 0)));
                   Checkpoint true]).
        split; [exact Hloop |]. split.
        { rewrite Hlog. simpl. rewrite Hrun, <- app_assoc. reflexivity. }
        split.
        { rewrite revealedLines_app, length_app. simpl. lia. }
        split; [exact Hexit |].
        unfold storeDocs in *. simpl in Hdocs, Hsel, Hdraws.
        rewrite (map_replaceAt document _ _ ed ed' Hed eq_refl) in Hdocs.
        rewrite (map_replaceAt selection _ _ ed ed' Hed eq_refl) in Hsel.
        auto.
      * exists s, (record (Checkpoint false) w), [Checkpoint false].
        simpl. repeat split; auto. lia.
    + exists s, w, []. simpl. repeat split; auto. lia.
Qed.

(** X10: on a document with lines [scrollUpAndDown] returns either with
    the deadline reached or with the flag [false]; it reveals at most
    [durationMs / 200 + 1] times.  With a duration that is not positive it
    does nothing at all; called with the flag [false] it only reads the
    flag. *)
Theorem scrollUpAndDown_exit (env : Env) (h : Handle) (durationMs : Z)
    (w : World) (ed : TextEditor) :
  nth_error (editors w) h = Some ed ->
  1 <= docLineCount (document ed) ->
  exists w' new,
    scrollUpAndDown env h durationMs w = (Ret tt, w') /\
    log w' = new ++ log w /\
    (List.length (revealedLines new)
       <= Datatypes.S (Z.to_nat (durationMs / 200)))%nat /\
    (clock w + durationMs <= clock w' \/ isRunning w' = false) /\
    (durationMs <= 0 -> w' = w) /\
    (0 < durationMs -> isRunning w = false ->
     w' = record (Checkpoint false) w).
Proof.
  intros Hed Hlc.
  destruct (scrollLoop_exit env h (docLineCount (document ed))
              (clock w + durationMs) (scrollFuel durationMs) Hlc
              (true, 0) w ed Hed)
    as [s' [w' [new [Hloop [Hlog [Hcount [Hexit _]]]]]]].
  { simpl. lia. }
  { pose proof (scrollFuel_enough durationMs). lia. }
  assert (Hrun : scrollUpAndDown env h durationMs w = (Ret tt, w')).
  { unfold scrollUpAndDown, bind at 1, getEditor. rewrite Hed.
    simpl orThrow. unfold ret at 1. unfold bind at 1, dateNow.
    unfold bind at 1. rewrite Hloop. reflexivity. }
  exists w', new. split; [exact Hrun |]. split; [exact Hlog |].
  split; [exact Hcount |]. split; [exact Hexit |].
  unfold scrollFuel in Hloop. simpl in Hloop.
  unfold scrollCond, bind at 1, dateNow in Hloop.
  split.
  - intros Hd.
    destruct (Z.ltb_spec (clock w) (clock w + durationMs)); [lia |].
    simpl in Hloop. inversion Hloop. reflexivity.
  - intros Hd Hflag.
    destruct (Z.ltb_spec (clock w) (clock w + durationMs)); [| lia].
    unfold checkRunning in Hloop. rewrite Hflag in Hloop.
    inversion Hloop. reflexivity.
Qed.

(** X11: [scrollUpAndDown] moves the view only: no document and no
    selection of any editor is changed, no editor is added or removed, and
    no random number is drawn. *)
Theorem scrollUpAndDown_moves_view_only (env : Env) (h : Handle)
    (durationMs : Z) (w : World) (ed : TextEditor) :
  nth_error (editors w) h = Some ed ->
  1 <= docLineCount (document ed) ->
  exists w',
    scrollUpAndDown env h durationMs w = (Ret tt, w') /\
    map document (editors w') = map document (editors w) /\
    map selection (editors w') = map selection (editors w) /\
    List.length (editors w') = List.length (editors w) /\
    draws w' = draws w.
Proof.
  intros Hed Hlc.
  destruct (scrollLoop_exit env h (docLineCount (document ed))
              (clock w + durationMs) (scrollFuel durationMs) Hlc
              (true, 0) w ed Hed)
    as [s' [w' [new [Hloop [_ [_ [_ [Hdocs [Hsel Hdraws]]]]]]]]].
  { simpl. lia. }
  { pose proof (scrollFuel_enough durationMs). lia. }
  exists w'. split.
  - unfold scrollUpAndDown, bind at 1, getEditor. rewrite Hed.
    simpl orThrow. unfold ret at 1. unfold bind at 1, dateNow.
    unfold bind at 1. rewrite Hloop. reflexivity.
  - unfold storeDocs in Hdocs. repeat split; try assumption.
    rewrite <- (length_map document (editors w')), Hdocs.
    apply length_map.
Qed.

(** ** Invariants of the log along the loop *)

Lemma pres_bind {A B} (I : World -> Prop) (m : M A) (f : A -> M B)
    (V : A -> Prop) (V' : B -> Prop) :
  preserves I m V ->
  (forall a, V a -> preserves I (f a) V') ->
  preserves I (bind m f) V'.
Proof.
  intros Hm Hf w HI. destruct (Hm w HI) as [HI1 HV]. unfold bind.
  destruct (m w) as [[a | | |] w1]; simpl in *.
  - apply Hf; auto.
  - split; [exact HI1 | intros a H; discriminate].
  - split; [exact HI1 | intros a H; discriminate].
  - split; [exact HI1 | intros a H; discriminate].
Qed.

Lemma pres_seq {A B} (I : World -> Prop) (m : M A) (f : A -> M B)
    (V' : B -> Prop) :
  preserves I m (fun _ => True) ->
  (forall a, preserves I (f a) V') ->
  preserves I (bind m f) V'.
Proof. intros Hm Hf. apply pres_bind with (V := fun _ => True); auto. Qed.

Lemma pres_value {A} (I : World -> Prop) (m : M A) (V : A -> Prop) :
  preserves I m (fun _ => True) ->
  (forall w a, fst (m w) = Ret a -> V a) ->
  preserves I m V.
Proof.
  intros Hm HV w HI. destruct (Hm w HI) as [HI1 _].
  split; [exact HI1 | apply HV].
Qed.

Lemma pres_ret {A} (I : World -> Prop) (a : A) :
  preserves I (ret a) (fun _ => True).
Proof. intros w HI. simpl. auto. Qed.

Lemma pres_break {A} (I : World -> Prop) (V : A -> Prop) :
  preserves I break V.
Proof. intros w HI. simpl. split; [exact HI | intros a H; discriminate]. Qed.

Lemma pres_throw {A} (I : World -> Prop) (V : A -> Prop) :
  preserves I throw V.
Proof. intros w HI. simpl. split; [exact HI | intros a H; discriminate]. Qed.

Lemma pres_orThrow {A} (I : World -> Prop) (o : option A) :
  preserves I (orThrow o) (fun _ => True).
Proof. destruct o; [apply pres_ret | apply pres_throw]. Qed.

Lemma pres_while {S} (I : World -> Prop) (cond : M bool) (body : S -> M S)
    (fuel : nat) :
  preserves I cond (fun _ => True) ->
  (forall s, preserves I (body s) (fun _ => True)) ->
  forall s, preserves I (while fuel cond body s) (fun _ => True).
Proof.
  intros Hcond Hbody.
  induction fuel as [| fuel IH]; intros s w HI; simpl;
    destruct (Hcond w HI) as [HI1 _];
    destruct (cond w) as [[[|] | | |] w1]; simpl in *;
    try (split; [exact HI1 | trivial]).
  destruct (Hbody s w1 HI1) as [HI2 _].
  destruct (body s w1) as [[s' | | |] w2]; simpl in *;
    try (split; [exact HI2 | trivial]).
  apply IH. exact HI2.
Qed.

Section LogInvariant.

Variable env : Env.
Variable files : list Uri.
Variable g : bool -> Prop.
Variable E : Event -> Prop.
Variable base : list Event.

Hypothesis g_suspend : forall k b, g b -> g (interference env k b).
Hypothesis E_check : forall b, g b -> E (Checkpoint b).
Hypothesis E_perform :
  forall b a, g b -> (forall f, a = OpenTextDocument f -> In f files) ->
              E (Performed b a).

Lemma pres_silent {A} (m : M A) :
  (forall w, isRunning (snd (m w)) = isRunning w /\
             log (snd (m w)) = log w) ->
  preserves (LogInv g E base) m (fun _ => True).
Proof.
  intros Hm w [Hg [new [Hlog Hall]]]. destruct (Hm w) as [Hflag Hsame].
  split; [| auto]. split; [rewrite Hflag; exact Hg |].
  exists new. rewrite Hsame. auto.
Qed.

Lemma pres_perform (a : Action) :
  (forall f, a = OpenTextDocument f -> In f files) ->
  preserves (LogInv g E base) (perform a) (fun _ => True).
Proof.
  intros Ha w [Hg [new [Hlog Hall]]]. simpl. split; [| auto].
  split; [exact Hg |].
  exists (Performed (isRunning w) a :: new).
  split; [simpl; f_equal; exact Hlog |].
  constructor; [apply E_perform; assumption | exact Hall].
Qed.

Lemma pres_check : preserves (LogInv g E base) checkRunning (fun _ => True).
Proof.
  intros w [Hg [new [Hlog Hall]]]. simpl. split; [| auto].
  split; [exact Hg |].
  exists (Checkpoint (isRunning w) :: new).
  split; [simpl; f_equal; exact Hlog |].
  constructor; [apply E_check; assumption | exact Hall].
Qed.

Lemma pres_suspend : preserves (LogInv g E base) (suspend env) (fun _ => True).
Proof.
  intros w [Hg [new [Hlog Hall]]]. simpl. split; [| auto].
  split; [apply g_suspend; exact Hg |]. exists new. auto.
Qed.

Lemma pres_dateNow : preserves (LogInv g E base) dateNow (fun _ => True).
Proof. apply pres_silent. intros w. simpl. auto. Qed.

Lemma pres_getEditor (h : Handle) :
  preserves (LogInv g E base) (getEditor h) (fun _ => True).
Proof. intros w. unfold getEditor. apply pres_orThrow. Qed.

Lemma pres_putEditor (h : Handle) (ed : TextEditor) :
  preserves (LogInv g E base) (putEditor h ed) (fun _ => True).
Proof. apply pres_silent. intros w. simpl. auto. Qed.

Lemma pres_addEditor (ed : TextEditor) :
  preserves (LogInv g E base) (addEditor ed) (fun _ => True).
Proof. apply pres_silent. intros w. simpl. auto. Qed.

Lemma pres_elapse (ms : Z) :
  preserves (LogInv g E base) (elapse ms) (fun _ => True).
Proof. apply pres_silent. intros w. simpl. auto. Qed.

Lemma pres_mathRandom :
  preserves (LogInv g E base) (mathRandom env) (fun _ => True).
Proof. apply pres_silent. intros w. simpl. auto. Qed.

Create HintDb pres.
#[local] Hint Resolve pres_ret pres_throw pres_orThrow pres_check pres_suspend
  pres_dateNow pres_getEditor pres_putEditor pres_addEditor pres_elapse
  pres_mathRandom : pres.
#[local] Hint Extern 1 (preserves _ (perform _) _) =>
  (apply pres_perform; intros ? ?; discriminate) : pres.
#[local] Hint Extern 2 (preserves _ (bind _ _) _) =>
  (apply pres_seq; [| intro]) : pres.
#[local] Hint Extern 3 (preserves _ (if ?c then _ else _) _) =>
  destruct c : pres.

Lemma pres_setSelection (h : Handle) (sel : Selection) :
  preserves (LogInv g E base) (setSelection h sel) (fun _ => True).
Proof. unfold setSelection. auto with pres. Qed.

Lemma pres_revealRange (h : Handle) (r : Range) :
  preserves (LogInv g E base) (revealRange h r) (fun _ => True).
Proof. unfold revealRange. auto with pres. Qed.

Lemma pres_sleep (ms : Z) :
  preserves (LogInv g E base) (sleep env ms) (fun _ => True).
Proof. unfold sleep. auto with pres. Qed.

#[local] Hint Resolve pres_setSelection pres_revealRange pres_sleep : pres.

Lemma pres_selectRandomLines (h : Handle) (lineCount : Z) :
  preserves (LogInv g E base) (selectRandomLines env h lineCount)
            (fun _ => True).
Proof. unfold selectRandomLines. auto 12 with pres. Qed.

Lemma pres_deselectLines (h : Handle) :
  preserves (LogInv g E base) (deselectLines h) (fun _ => True).
Proof. unfold deselectLines. auto with pres. Qed.

Lemma pres_scrollUpAndDown (h : Handle) (durationMs : Z) :
  preserves (LogInv g E base) (scrollUpAndDown env h durationMs)
            (fun _ => True).
Proof.
  unfold scrollUpAndDown.
  apply pres_seq; [auto with pres | intros ed].
  apply pres_seq; [auto with pres | intros now].
  apply pres_seq; [| intros _; apply pres_ret].
  apply pres_while.
  - unfold scrollCond. auto with pres.
  - intros s. unfold scrollBody. auto 8 with pres.
Qed.

#[local] Hint Resolve pres_selectRandomLines pres_deselectLines
  pres_scrollUpAndDown : pres.

(** What [getRandomFile] returns is a file of the list. *)
Lemma pres_getRandomFile (exclude : option Uri) :
  preserves (LogInv g E base) (getRandomFile env files exclude)
            (fun r => forall f, r = Some f -> In f files).
Proof.
  apply pres_value.
  - unfold getRandomFile. auto with pres.
  - intros w r Hr f ->.
    destruct (getRandomFile_spec env files exclude w)
      as [r' [w' [Hrun [_ Hin]]]].
    rewrite Hrun in Hr. simpl in Hr. inversion Hr; subst r'.
    destruct exclude as [e |]; [| exact Hin].
    apply availableFiles_In in Hin. apply Hin.
Qed.

Lemma pres_openFile (file : Uri) :
  In file files ->
  preserves (LogInv g E base) (openFile env file) (fun _ => True).
Proof.
  intros Hin. unfold openFile.
  apply pres_seq;
    [apply pres_perform; intros f Hf; inversion Hf; subst; exact Hin |].
  intros _. auto 8 with pres.
Qed.

Ltac pstep :=
  lazymatch goal with
  | |- preserves _ (bind (getRandomFile _ _ _) _) _ =>
      eapply pres_bind;
        [apply pres_getRandomFile | intros ? ?; cbv beta in *]
  | |- preserves _ (bind (openFile _ ?f) _) _ =>
      apply pres_seq;
        [apply pres_openFile;
         lazymatch f with
         | match ?p with Some _ => _ | None => _ end => destruct p
         | _ => idtac
         end; eauto
        | intros ?]
  | |- preserves _ (bind _ _) _ =>
      apply pres_seq; [solve [auto with pres] | intros ?]
  | |- preserves _ (match ?r with Some _ => _ | None => _ end) _ =>
      destruct r; [| apply pres_break]
  | |- preserves _ (if negb ?r then break else _) _ =>
      destruct r; simpl negb; cbv iota; [| apply pres_break]
  | |- preserves _ (scrollUpAndDown _ _ _) _ =>
      apply pres_scrollUpAndDown
  end;
  cbv zeta.

Lemma pres_cycle :
  preserves (LogInv g E base) (cycle env files) (fun _ => True).
Proof.
  unfold cycle. repeat pstep.
Qed.

Lemma pres_runLoop (fuel : nat) :
  preserves (LogInv g E base) (runLoop env fuel files) (fun _ => True).
Proof.
  unfold runLoop. apply pres_while; [apply pres_check |].
  intros _. apply pres_cycle.
Qed.

End LogInvariant.

(** ** runLoop, further *)

Lemma LogInv_start (g : bool -> Prop) (E : Event -> Prop) (w : World) :
  g (isRunning w) -> LogInv g E (log w) w.
Proof. intros Hg. split; [exact Hg |]. exists []. auto. Qed.

(** The loop opens files of its list only. *)
Lemma runLoop_opens_listed_files_only_aux (env : Env) (fuel : nat)
    (files : list Uri) (w : World) :
  exists o w' new,
    runLoop env fuel files w = (o, w') /\
    log w' = new ++ log w /\
    forall b f, In (Performed b (OpenTextDocument f)) new -> In f files.
Proof.
  destruct (pres_runLoop env files (fun _ => True) (opensOnly files) (log w))
    with (fuel := fuel) (w := w) as [[_ [new [Hlog Hall]]] _].
  - auto.
  - intros b _ b' f H. discriminate H.
  - intros b a _ Ha b' f H. inversion H; subst. apply Ha. reflexivity.
  - apply LogInv_start. exact I.
  - destruct (runLoop env fuel files w) as [o w'] eqn:Hrun. simpl in *.
    exists o, w', new. split; [reflexivity |]. split; [exact Hlog |].
    intros b f Hin. rewrite Forall_forall in Hall.
    apply (Hall _ Hin b f eq_refl).
Qed.

(** X12: the loop opens files of its list only: every [openTextDocument]
    it asks for is for a file of [files]. *)
Theorem runLoop_opens_listed_files_only (env : Env) (fuel : nat)
    (files : list Uri) (w : World) :
  exists o w' new,
    runLoop env fuel files w = (o, w') /\
    log w' = new ++ log w /\
    forall b f, In (Performed b (OpenTextDocument f)) new -> In f files.
Proof. apply runLoop_opens_listed_files_only_aux. Qed.

(** X13: if no handler clears the flag while the loop is suspended, a loop
    that starts with the flag [true] reads [true] at every checkpoint,
    performs every action with the flag [true] and leaves it [true]; on a
    list that is not empty it never returns of its own accord. *)
Theorem runLoop_undisturbed_keeps_running (env : Env) (fuel : nat)
    (files : list Uri) (w : World) :
  (forall k, interference env k true = true) ->
  isRunning w = true ->
  exists o w' new,
    runLoop env fuel files w = (o, w') /\
    log w' = new ++ log w /\
    isRunning w' = true /\
    (forall e, In e new -> eventFlag e = true) /\
    (files <> [] -> o <> Ret tt).
Proof.
  intros Hcalm Hflag.
  destruct (pres_runLoop env files (fun b => b = true)
              (fun e => eventFlag e = true) (log w))
    with (fuel := fuel) (w := w) as [[Hrunning [new [Hlog Hall]]] _].
  - intros k b ->. apply Hcalm.
  - intros b ->. reflexivity.
  - intros b a -> _. reflexivity.
  - apply LogInv_start. exact Hflag.
  - destruct (runLoop_discipline env fuel files w)
      as [o [w' [new' [Hrun [Hlog' Hend]]]]].
    rewrite Hrun in *. simpl in *.
    assert (new' = new)
      by (apply (app_inv_tail (log w)); rewrite <- Hlog, <- Hlog';
          reflexivity).
    subst new'. rewrite Forall_forall in Hall.
    exists o, w', new. repeat split; auto.
    intros Hne ->.
    destruct Hend as [Hhalt | [_ Hnil]]; [| contradiction].
    apply phaseOf_Halted_head in Hhalt as [earlier ->].
    discriminate (Hall (Checkpoint false) (or_introl eq_refl)).
Qed.

(** X14: when the flag is [false] at entry, or the list is empty, the loop
    returns without asking anything of the host; in the second case it
    leaves the flag [true] although no loop is running any more. *)
Theorem runLoop_idle (env : Env) (fuel : nat) (files : list Uri)
    (w : World) :
  (isRunning w = false ->
   runLoop env fuel files w = (Ret tt, record (Checkpoint false) w)) /\
  (isRunning w = true ->
   runLoop env (Datatypes.S fuel) [] w
     = (Ret tt, record (Checkpoint true) w) /\
   isRunning (snd (runLoop env (Datatypes.S fuel) [] w)) = true).
Proof.
  split; intros Hflag.
  - unfold runLoop. destruct fuel; simpl; unfold checkRunning;
      rewrite Hflag; reflexivity.
  - assert (Hrun : runLoop env (Datatypes.S fuel) [] w
                   = (Ret tt, record (Checkpoint true) w)).
    { unfold runLoop. simpl. unfold checkRunning. rewrite Hflag.
      reflexivity. }
    split; [exact Hrun |]. rewrite Hrun. exact Hflag.
Qed.

Lemma runLoop_returns_stopped_aux (env : Env) (fuel : nat)
    (files : list Uri) (w w' : World) :
  files <> [] ->
  runLoop env fuel files w = (Ret tt, w') ->
  isRunning w' = false.
Proof.
  intros Hne Hrun.
  pose proof (runLoop_phase env (log w) files fuel w
                (or_introl (At_start w))) as H.
  rewrite Hrun in H. simpl in H.
  destruct H as [[new [_ [_ Hflag]]] | [_ Hnil]]; [| contradiction].
  apply Hflag. reflexivity.
Qed.

(** X15: when the loop returns from a list that is not empty, the flag is
    [false]. *)
Theorem runLoop_returns_stopped (env : Env) (fuel : nat) (files : list Uri)
    (w w' : World) :
  files <> [] ->
  runLoop env fuel files w = (Ret tt, w') ->
  isRunning w' = false.
Proof. apply runLoop_returns_stopped_aux. Qed.

(** ** The command handlers, further *)

(** X16: [stop] always leaves the flag [false] and shows exactly one
    message, [Budgie stopped!] if the flag was [true] and
    [Budgie is not running.] if not; it touches nothing else, and a second
    [stop] reports that nothing is running. *)
Theorem stopCommand_always_stops (w : World) :
  exists w',
    stopCommand w = (Ret tt, w') /\
    isRunning w' = false /\
    log w' =
      Performed false
        (ShowInformationMessage
           (if isRunning w then "Budgie stopped!"
            else "Budgie is not running."))
        :: log w /\
    editors w' = editors w /\ clock w' = clock w /\
    awaits w' = awaits w /\ draws w' = draws w /\
    log (snd (stopCommand w')) =
      Performed false (ShowInformationMessage "Budgie is not running.")
        :: log w'.
Proof.
  unfold stopCommand, bind, readRunning, setRunning, perform.
  destruct (isRunning w) eqn:Hflag; simpl.
  - eexists. split; [reflexivity |]. simpl. repeat split.
  - eexists. split; [reflexivity |]. simpl. rewrite Hflag. simpl.
    rewrite Hflag. repeat split.
Qed.

(** X17: [start] returns only after showing the already-running message,
    after showing the no-files warning, or once the loop it started has
    been stopped: in the last case the flag is [false] when it returns. *)
Theorem startCommand_returns (env : Env) (fuel : nat) (w w' : World) :
  startCommand env fuel w = (Ret tt, w') ->
  (isRunning w = true /\
   w' = record (Performed true
                  (ShowInformationMessage "Budgie is already running!")) w)
  \/ (isRunning w = false /\
      List.filter hasKnownExtension (foundFiles env) = [] /\
      exists b, log w' =
                Performed b (ShowWarningMessage "No files found in workspace")
                  :: Performed false FindFiles :: log w)
  \/ (isRunning w = false /\
      List.filter hasKnownExtension (foundFiles env) <> [] /\
      isRunning w' = false).
Proof.
  unfold startCommand, bind at 1, readRunning.
  destruct (isRunning w) eqn:Hflag.
  - intros H. left. split; [reflexivity |].
    unfold perform in H. rewrite Hflag in H. inversion H. reflexivity.
  - unfold bind at 1. unfold getWorkspaceFiles, bind, perform, suspend, ret.
    simpl fst. simpl snd. cbv beta iota.
    destruct (List.filter hasKnownExtension (foundFiles env))
      as [| f files] eqn:Hfiles.
    + intros H. right. left. split; [reflexivity |]. split; [reflexivity |].
      simpl in H. inversion H. simpl. rewrite Hflag. eexists. reflexivity.
    + intros H. right. right. split; [reflexivity |].
      split; [discriminate |].
      simpl in H.
      eapply (runLoop_returns_stopped_aux env fuel (f :: files));
        [discriminate | exact H].
Qed.

(** X18: whatever [start] opens is a file of the search result with a
    known extension. *)
Theorem startCommand_opens_known_files_only (env : Env) (fuel : nat)
    (w : World) :
  exists o w' new,
    startCommand env fuel w = (o, w') /\
    log w' = new ++ log w /\
    forall b f,
      In (Performed b (OpenTextDocument f)) new ->
      In f (foundFiles env) /\ hasKnownExtension f = true.
Proof.
  set (files := List.filter hasKnownExtension (foundFiles env)).
  assert (Hfiles : forall f, In f files ->
                     In f (foundFiles env) /\ hasKnownExtension f = true)
    by (intros f Hf; apply filter_In in Hf; exact Hf).
  unfold startCommand, bind at 1, readRunning.
  destruct (isRunning w) eqn:Hflag.
  - eexists _, _, [_]. split; [reflexivity |]. split; [reflexivity |].
    intros b f [H | []]. discriminate H.
  - unfold bind at 1. unfold getWorkspaceFiles, bind, perform, suspend, ret.
    simpl fst. simpl snd. cbv beta iota. fold files.
    destruct files as [| f0 files'] eqn:Hlist.
    + simpl. eexists _, _, [_; _]. split; [reflexivity |].
      split; [reflexivity |].
      intros b f [H | [H | []]]; discriminate H.
    + change (Z.of_nat (List.length (f0 :: files')) =? 0) with false.
      cbv beta iota. unfold setRunning. simpl.
      match goal with
      | |- context [runLoop env fuel _ ?w1] =>
          destruct (runLoop_opens_listed_files_only_aux env fuel
                      (f0 :: files') w1)
            as [o [w' [new [Hrun [Hlog Hall]]]]]
      end.
      exists o, w', (new ++ [Performed true
                               (ShowInformationMessage startedMessage);
                             Performed false FindFiles]).
      split; [exact Hrun |]. split.
      * rewrite Hlog. simpl. rewrite Hflag, <- app_assoc. reflexivity.
      * intros b f Hin. apply in_app_or in Hin as [Hin | Hin].
        -- apply Hfiles. apply (Hall b f Hin).
        -- destruct Hin as [H | [H | []]]; discriminate H.
Qed.

(** ** The editor store along the loop *)

Lemma Ok_same_editors (docs0 : list TextDocument) (n : nat) (w w' : World) :
  editors w' = editors w -> Ok docs0 n w -> Ok docs0 n w'.
Proof.
  intros Heq [Hpre [Hall Hlen]]. unfold Ok, storeDocs in *.
  rewrite Heq. auto.
Qed.

Lemma Ok_same_docs (docs0 : list TextDocument) (n : nat) (w w' : World) :
  storeDocs w' = storeDocs w -> Ok docs0 n w -> Ok docs0 n w'.
Proof.
  intros Heq [Hpre [Hall Hlen]]. unfold Ok in *. rewrite Heq.
  split; [exact Hpre |]. split; [exact Hall |].
  unfold storeDocs in Heq.
  rewrite <- (length_map document (editors w')), Heq, length_map.
  exact Hlen.
Qed.

Lemma Ok_weaken (docs0 : list TextDocument) (n m : nat) (w : World) :
  (m <= n)%nat -> Ok docs0 n w -> Ok docs0 m w.
Proof. intros Hle [Hpre [Hall Hlen]]. unfold Ok. repeat split; auto. lia. Qed.

Lemma Ok_grow (docs0 : list TextDocument) (n : nat) (w w' : World)
    (ed : TextEditor) :
  editors w' = editors w ++ [ed] ->
  hasLines (document ed) ->
  Ok docs0 n w ->
  Ok docs0 (Datatypes.S (List.length (editors w))) w'.
Proof.
  intros Heq Hed [[more Hpre] [Hall Hlen]]. unfold Ok, storeDocs in *.
  rewrite Heq, map_app, Hpre. simpl. split; [| split].
  - exists (more ++ [document ed]). rewrite app_assoc. reflexivity.
  - rewrite <- Hpre. apply Forall_app. split; [exact Hall |].
    constructor; [exact Hed | constructor].
  - rewrite length_app. simpl. lia.
Qed.

Lemma Ok_lookup (docs0 : list TextDocument) (h : nat) (w : World) :
  Ok docs0 (Datatypes.S h) w ->
  exists ed, nth_error (editors w) h = Some ed /\ hasLines (document ed).
Proof.
  intros [_ [Hall Hlen]].
  destruct (nth_error (editors w) h) as [ed |] eqn:Hed.
  - exists ed. split; [reflexivity |].
    rewrite Forall_forall in Hall. apply Hall. unfold storeDocs.
    apply in_map. eapply nth_error_In. exact Hed.
  - apply nth_error_None in Hed. lia.
Qed.

(** *** Quiet computations *)

Lemma quiet_ret {A} (a : A) : quiet (ret a).
Proof. intros w. exists a. auto. Qed.

Lemma quiet_bind {A B} (m : M A) (f : A -> M B) :
  quiet m -> (forall a, quiet (f a)) -> quiet (bind m f).
Proof.
  intros Hm Hf w. unfold bind. destruct (Hm w) as [a [Ha Heds]].
  destruct (m w) as [o w1]. simpl in *. subst o.
  destruct (Hf a w1) as [b [Hb Heds']]. exists b.
  split; [exact Hb | rewrite Heds'; exact Heds].
Qed.

Lemma quiet_perform (a : Action) : quiet (perform a).
Proof. intros w. exists tt. auto. Qed.

Lemma quiet_checkRunning : quiet checkRunning.
Proof. intros w. exists (isRunning w). auto. Qed.

Lemma quiet_dateNow : quiet dateNow.
Proof. intros w. exists (clock w). auto. Qed.

Lemma quiet_elapse (ms : Z) : quiet (elapse ms).
Proof. intros w. exists tt. auto. Qed.

Lemma quiet_mathRandom (env : Env) : quiet (mathRandom env).
Proof. intros w. eexists. simpl. auto. Qed.

Lemma quiet_suspend (env : Env) : quiet (suspend env).
Proof. intros w. exists tt. auto. Qed.

Create HintDb quiet.
#[local] Hint Resolve quiet_ret quiet_perform quiet_checkRunning
  quiet_dateNow quiet_elapse quiet_mathRandom quiet_suspend : quiet.
#[local] Hint Extern 2 (quiet (bind _ _)) =>
  (apply quiet_bind; [| intro]) : quiet.
#[local] Hint Extern 3 (quiet (if ?c then _ else _)) => destruct c : quiet.

Lemma quiet_sleep (env : Env) (ms : Z) : quiet (sleep env ms).
Proof. unfold sleep. auto with quiet. Qed.

Lemma quiet_getRandomFile (env : Env) (files : list Uri)
    (exclude : option Uri) :
  quiet (getRandomFile env files exclude).
Proof. unfold getRandomFile. auto with quiet. Qed.

#[local] Hint Resolve quiet_sleep quiet_getRandomFile : quiet.

Section Store.

Variable env : Env.
Variable docs0 : list TextDocument.

Hypothesis content_has_lines : forall f, hasLines (contentOf env f).

Lemma ok_quiet {A B} (n : nat) (m : M A) (f : A -> M B)
    (Q : Outcome B -> World -> Prop) :
  quiet m ->
  (forall a, hoare (Ok docs0 n) (f a) Q) ->
  hoare (Ok docs0 n) (bind m f) Q.
Proof.
  intros Hm Hf w Hw. unfold bind. destruct (Hm w) as [a [Ha Heds]].
  destruct (m w) as [o w1]. simpl in *. subst o.
  apply Hf. apply (Ok_same_editors _ _ w); assumption.
Qed.

Lemma ok_break {A} (n : nat) (R : A -> World -> Prop) :
  hoare (Ok docs0 n) break (okPost docs0 R).
Proof. intros w Hw. simpl. apply (Ok_weaken _ n); [lia | exact Hw]. Qed.

Lemma ok_add {B} (n : nat) (doc : TextDocument) (f : Handle -> M B)
    (Q : Outcome B -> World -> Prop) :
  hasLines doc ->
  (forall h, hoare (Ok docs0 (Datatypes.S h)) (f h) Q) ->
  hoare (Ok docs0 n) (bind (addEditor (freshEditor doc)) f) Q.
Proof.
  intros Hdoc Hf w Hw. unfold bind, addEditor. apply Hf.
  apply (Ok_grow docs0 n w _ (freshEditor doc)); auto.
Qed.

Lemma ok_open {B} (n : nat) (file : Uri) (f : Handle -> M B)
    (Q : Outcome B -> World -> Prop) :
  (forall h, hoare (Ok docs0 (Datatypes.S h)) (f h) Q) ->
  hoare (Ok docs0 n) (bind (openFile env file) f) Q.
Proof.
  intros Hf w Hw. unfold bind, openFile, bind, perform, suspend, addEditor.
  simpl. apply Hf.
  eapply (Ok_grow docs0 n w _ (freshEditor (contentOf env file)));
    [reflexivity | apply content_has_lines | exact Hw].
Qed.

Lemma ok_select {B} (h : Handle) (lineCount : Z) (f : string -> M B)
    (Q : Outcome B -> World -> Prop) :
  1 <= lineCount ->
  (forall a, hoare (Ok docs0 (Datatypes.S h)) (f a) Q) ->
  hoare (Ok docs0 (Datatypes.S h))
        (bind (selectRandomLines env h lineCount) f) Q.
Proof.
  intros Hcount Hf w Hw.
  destruct (Ok_lookup docs0 h w Hw) as [ed [Hed Hlines]].
  destruct (selectRandomLines_run env h lineCount w ed Hed Hlines Hcount)
    as [endText [_ Hrun]].
  cbv zeta in Hrun. unfold bind. rewrite Hrun. apply Hf.
  apply (Ok_same_docs _ _ w); [| exact Hw].
  unfold storeDocs. simpl.
  apply (map_replaceAt document _ _ ed _ Hed). reflexivity.
Qed.

Lemma ok_deselect {B} (h : Handle) (f : unit -> M B)
    (Q : Outcome B -> World -> Prop) :
  (forall a, hoare (Ok docs0 (Datatypes.S h)) (f a) Q) ->
  hoare (Ok docs0 (Datatypes.S h)) (bind (deselectLines h) f) Q.
Proof.
  intros Hf w Hw.
  destruct (Ok_lookup docs0 h w Hw) as [ed [Hed Hlines]].
  pose proof (deselectLines_run h w ed Hed) as Hrun. cbv zeta in Hrun.
  unfold bind. rewrite Hrun. apply Hf.
  apply (Ok_same_docs _ _ w); [| exact Hw].
  unfold storeDocs. simpl.
  apply (map_replaceAt document _ _ ed _ Hed). reflexivity.
Qed.

Lemma ok_scroll (h : Handle) (durationMs : Z) :
  hoare (Ok docs0 (Datatypes.S h)) (scrollUpAndDown env h durationMs)
        (okPost docs0 (fun _ w => Ok docs0 0 w)).
Proof.
  intros w Hw.
  destruct (Ok_lookup docs0 h w Hw) as [ed [Hed Hlines]].
  destruct (scrollLoop_exit env h (docLineCount (document ed))
              (clock w + durationMs) (scrollFuel durationMs) Hlines
              (true, 0) w ed Hed)
    as [s' [w' [new [Hloop [_ [_ [_ [Hdocs _]]]]]]]].
  { simpl. lia. }
  { pose proof (scrollFuel_enough durationMs). lia. }
  assert (Hrun : scrollUpAndDown env h durationMs w = (Ret tt, w')).
  { unfold scrollUpAndDown, bind at 1, getEditor. rewrite Hed.
    simpl orThrow. unfold ret at 1. unfold bind at 1, dateNow.
    unfold bind at 1. rewrite Hloop. reflexivity. }
  rewrite Hrun. simpl.
  apply (Ok_weaken _ (Datatypes.S h)); [lia |].
  apply (Ok_same_docs _ _ w); assumption.
Qed.

Ltac ostep :=
  lazymatch goal with
  | |- hoare _ (bind (openFile _ _) _) _ => apply ok_open; intros ?
  | |- hoare _ (bind (addEditor (freshEditor _)) _) _ =>
      apply ok_add; [unfold hasLines; vm_compute; discriminate | intros ?]
  | |- hoare _ (bind (selectRandomLines _ _ _) _) _ =>
      apply ok_select; [lia | intros ?]
  | |- hoare _ (bind (deselectLines _) _) _ => apply ok_deselect; intros ?
  | |- hoare _ (bind _ _) _ =>
      apply ok_quiet; [solve [auto with quiet] | intros ?]
  | |- hoare _ (match ?r with Some _ => _ | None => _ end) _ =>
      destruct r; [| apply ok_break]
  | |- hoare _ (if negb ?r then break else _) _ =>
      destruct r; simpl negb; cbv iota; [| apply ok_break]
  | |- hoare _ (scrollUpAndDown _ _ _) _ => apply ok_scroll
  end;
  cbv zeta.

Lemma ok_cycle (files : list Uri) :
  hoare (Ok docs0 0) (cycle env files)
        (okPost docs0 (fun _ w => Ok docs0 0 w)).
Proof.
  unfold cycle. repeat ostep.
Qed.

Lemma ok_runLoop (files : list Uri) (fuel : nat) :
  hoare (Ok docs0 0) (runLoop env fuel files)
        (okPost docs0 (fun _ w => Ok docs0 0 w)).
Proof.
  unfold runLoop.
  induction fuel as [| fuel IH]; intros w Hw; unfold hoare in *; simpl;
    unfold checkRunning;
    assert (Hw1 : Ok docs0 0 (record (Checkpoint (isRunning w)) w))
      by (apply (Ok_same_editors _ _ w); [reflexivity | exact Hw]);
    destruct (isRunning w); simpl; try exact Hw1.
  pose proof (ok_cycle files _ Hw1) as Hb.
  destruct (cycle env files (record (Checkpoint true) w))
    as [[[] | | |] w2]; simpl in *.
  - apply IH. exact Hb.
  - exact Hb.
  - contradiction.
  - exact Hb.
Qed.

End Store.


(** ** The further properties at concrete inputs *)

Lemma hasKnownExtension_ignores_case_witness :
  In (toLowerCase ".MD") knownExtensions /\
  hasKnownExtension (mkUri ("/w/README" ++ ".MD") "") = true.
Proof.
  assert (Hin : In (toLowerCase ".MD") knownExtensions)
    by (vm_compute; auto 10).
  split; [exact Hin |].
  exact (hasKnownExtension_ignores_case "/w/README" ".MD" "" Hin).
Defined.

Lemma getRandomFile_reaches_every_candidate_witness :
  In fileB (availableFiles [fileA; fileB] None) /\
  exists env,
    forall w, exists w',
      getRandomFile env [fileA; fileB] None w = (Ret (Some fileB), w').
Proof.
  assert (Hin : In fileB (availableFiles [fileA; fileB] None))
    by (right; left; reflexivity).
  split; [exact Hin |].
  exact (getRandomFile_reaches_every_candidate [fileA; fileB] None fileB Hin).
Defined.


Lemma selectRandomLines_whole_lines_witness :
  nth_error (editors (editorWorld fourLines)) 0 = Some (freshEditor fourLines)
  /\ 1 <= 3 /\ 1 <= docLineCount fourLines /\
  exists text w' ed',
    selectRandomLines calmEnv 0%nat 3 (editorWorld fourLines)
      = (Ret text, w') /\
    nth_error (editors w') 0 = Some ed' /\
    character (anchor (selection ed')) = 0 /\
    line (active (selection ed')) - line (anchor (selection ed')) + 1 = 3.
Proof.
  assert (Hsize : 1 <= 3) by lia.
  assert (Htotal : 1 <= docLineCount fourLines) by (vm_compute; discriminate).
  split; [reflexivity |]. split; [exact Hsize |]. split; [exact Htotal |].
  destruct (selectRandomLines_whole_lines calmEnv 0%nat 3
              (editorWorld fourLines) (freshEditor fourLines)
              eq_refl Hsize Htotal)
    as [text [w' [ed' [endText [Hrun [Hed [_ [Hcol [_ [_ [Hexact _]]]]]]]]]]].
  exists text, w', ed'. repeat split; try assumption.
  apply Hexact. vm_compute. discriminate.
Defined.

Lemma selectRandomLines_reaches_every_start_witness :
  nth_error (editors (editorWorld fourLines)) 0 = Some (freshEditor fourLines)
  /\ 1 <= 3 /\ 1 <= docLineCount fourLines /\
  0 <= 1 <= Z.max 0 (docLineCount fourLines - 3) /\
  exists env text w' ed',
    selectRandomLines env 0%nat 3 (editorWorld fourLines) = (Ret text, w') /\
    nth_error (editors w') 0 = Some ed' /\
    line (anchor (selection ed')) = 1.
Proof.
  assert (Hsize : 1 <= 3) by lia.
  assert (Htotal : 1 <= docLineCount fourLines) by (vm_compute; discriminate).
  assert (Hstart : 0 <= 1 <= Z.max 0 (docLineCount fourLines - 3))
    by (vm_compute; split; discriminate).
  split; [reflexivity |]. split; [exact Hsize |]. split; [exact Htotal |].
  split; [exact Hstart |].
  exact (selectRandomLines_reaches_every_start 0%nat 3
           (editorWorld fourLines) (freshEditor fourLines) 1
           eq_refl Hsize Htotal Hstart).
Defined.

Lemma deselectLines_collapses_witness :
  nth_error (editors (editorWorld twoLines)) 0 = Some (freshEditor twoLines)
  /\ exists w' ed',
    deselectLines 0%nat (editorWorld twoLines) = (Ret tt, w') /\
    nth_error (editors w') 0 = Some ed' /\
    anchor (selection ed') = active (selection (freshEditor twoLines)) /\
    editors (snd (deselectLines 0%nat w')) = editors w'.
Proof.
  split; [reflexivity |].
  destruct (deselectLines_collapses 0%nat (editorWorld twoLines)
              (freshEditor twoLines) eq_refl)
    as [w' [ed' [Hrun [Hed [Hanchor [_ [_ [_ Hagain]]]]]]]].
  exists w', ed'. repeat split; assumption.
Defined.


Lemma scrollUpAndDown_exit_witness :
  nth_error (editors (editorWorld fourLines)) 0 = Some (freshEditor fourLines)
  /\ 1 <= docLineCount fourLines /\
  exists w' new,
    scrollUpAndDown calmEnv 0%nat 5000 (editorWorld fourLines)
      = (Ret tt, w') /\
    log w' = new ++ log (editorWorld fourLines) /\
    (List.length (revealedLines new) <= 26)%nat /\
    (clock (editorWorld fourLines) + 5000 <= clock w' \/
     isRunning w' = false).
Proof.
  assert (Htotal : 1 <= docLineCount fourLines) by (vm_compute; discriminate).
  split; [reflexivity |]. split; [exact Htotal |].
  destruct (scrollUpAndDown_exit calmEnv 0%nat 5000 (editorWorld fourLines)
              (freshEditor fourLines) eq_refl Htotal)
    as [w' [new [Hrun [Hlog [Hcount [Hexit _]]]]]].
  exists w', new. repeat split; assumption.
Defined.

Lemma scrollUpAndDown_moves_view_only_witness :
  nth_error (editors (editorWorld fourLines)) 0 = Some (freshEditor fourLines)
  /\ 1 <= docLineCount fourLines /\
  exists w',
    scrollUpAndDown calmEnv 0%nat 5000 (editorWorld fourLines)
      = (Ret tt, w') /\
    map document (editors w') = [fourLines] /\
    map selection (editors w') = [newSelection origin origin].
Proof.
  assert (Htotal : 1 <= docLineCount fourLines) by (vm_compute; discriminate).
  split; [reflexivity |]. split; [exact Htotal |].
  destruct (scrollUpAndDown_moves_view_only calmEnv 0%nat 5000
              (editorWorld fourLines) (freshEditor fourLines)
              eq_refl Htotal)
    as [w' [Hrun [Hdocs [Hsel _]]]].
  exists w'. repeat split; assumption.
Defined.

Lemma runLoop_undisturbed_keeps_running_witness :
  (forall k, interference calmEnv k true = true) /\
  isRunning (startWorld true) = true /\
  exists o w' new,
    runLoop calmEnv 2 [fileA; fileB] (startWorld true) = (o, w') /\
    log w' = new ++ log (startWorld true) /\
    isRunning w' = true /\
    (forall e, In e new -> eventFlag e = true) /\
    o <> Ret tt.
Proof.
  assert (Hcalm : forall k, interference calmEnv k true = true)
    by (intros k; reflexivity).
  split; [exact Hcalm |]. split; [reflexivity |].
  destruct (runLoop_undisturbed_keeps_running calmEnv 2 [fileA; fileB]
              (startWorld true) Hcalm eq_refl)
    as [o [w' [new [Hrun [Hlog [Hflag [Hall Hnever]]]]]]].
  exists o, w', new. repeat split; try assumption.
  apply Hnever. discriminate.
Defined.

Lemma runLoop_idle_witness :
  isRunning (startWorld false) = false /\
  isRunning (startWorld true) = true /\
  runLoop calmEnv 2 [fileA] (startWorld false)
    = (Ret tt, record (Checkpoint false) (startWorld false)) /\
  runLoop calmEnv 2 [] (startWorld true)
    = (Ret tt, record (Checkpoint true) (startWorld true)).
Proof.
  split; [reflexivity |]. split; [reflexivity |]. split.
  - exact (proj1 (runLoop_idle calmEnv 2 [fileA] (startWorld false))
             eq_refl).
  - exact (proj1 (proj2 (runLoop_idle calmEnv 1 [] (startWorld true))
                    eq_refl)).
Defined.

Lemma runLoop_returns_stopped_witness :
  [fileA; fileB] <> [] /\
  runLoop stopDuringOpen 1 [fileA; fileB] (startWorld true)
    = (Ret tt, snd (runLoop stopDuringOpen 1 [fileA; fileB]
                      (startWorld true))) /\
  isRunning (snd (runLoop stopDuringOpen 1 [fileA; fileB]
                    (startWorld true))) = false.
Proof.
  assert (Hne : [fileA; fileB] <> []) by discriminate.
  assert (Hrun : runLoop stopDuringOpen 1 [fileA; fileB] (startWorld true)
                 = (Ret tt, snd (runLoop stopDuringOpen 1 [fileA; fileB]
                                   (startWorld true))))
    by (vm_compute; reflexivity).
  split; [exact Hne |]. split; [exact Hrun |].
  exact (runLoop_returns_stopped stopDuringOpen 1 [fileA; fileB]
           (startWorld true) _ Hne Hrun).
Defined.

Lemma startCommand_returns_witness :
  startCommand stopAfterSearch 1 (startWorld false)
    = (Ret tt, snd (startCommand stopAfterSearch 1 (startWorld false))) /\
  isRunning (snd (startCommand stopAfterSearch 1 (startWorld false))) = false.
Proof.
  assert (Hrun : startCommand stopAfterSearch 1 (startWorld false)
                 = (Ret tt, snd (startCommand stopAfterSearch 1
                                   (startWorld false))))
    by (vm_compute; reflexivity).
  split; [exact Hrun |].
  destruct (startCommand_returns stopAfterSearch 1 (startWorld false) _ Hrun)
    as [[Hflag _] | [[_ [Hnone _]] | [_ [_ Hstopped]]]].
  - discriminate Hflag.
  - discriminate Hnone.
  - exact Hstopped.
Defined.


(** ** The loop after [stop] *)

Lemma steady_bind (J : World -> Prop) {A B} (m : M A) (f : A -> M B) :
  steady J m -> (forall a, steady J (f a)) -> steady J (bind m f).
Proof.
  intros Hm Hf w HJ. unfold bind.
  destruct (Hm w HJ) as [HJ1 [Hle1 Hfuel1]].
  destruct (m w) as [[a | | |] w1]; simpl in *;
    try (repeat split; [assumption | assumption | discriminate]).
  - destruct (Hf a w1 HJ1) as [HJ2 [Hle2 Hfuel2]].
    repeat split; [assumption | lia | assumption].
  - contradiction.
Qed.

Lemma advancing_steady (J : World -> Prop) {A} (m : M A) :
  advancing J m -> steady J m.
Proof. intros Hm w HJ. destruct (Hm w HJ) as [H1 [H2 [H3 _]]]. auto. Qed.

Lemma advancing_then (J : World -> Prop) {A B} (m : M A) (f : A -> M B) :
  advancing J m -> (forall a, steady J (f a)) -> advancing J (bind m f).
Proof.
  intros Hm Hf w HJ. unfold bind.
  destruct (Hm w HJ) as [HJ1 [Hle1 [Hfuel1 Hlt1]]].
  destruct (m w) as [[a | | |] w1]; simpl in *;
    try (repeat split; [assumption | assumption | discriminate
                       | intros ? H; discriminate]).
  - destruct (Hf a w1 HJ1) as [HJ2 [Hle2 Hfuel2]].
    specialize (Hlt1 a eq_refl).
    repeat split; [assumption | lia | assumption | intros; lia].
  - contradiction.
Qed.

Lemma advancing_after (J : World -> Prop) {A B} (m : M A) (f : A -> M B) :
  steady J m -> (forall a, advancing J (f a)) -> advancing J (bind m f).
Proof.
  intros Hm Hf w HJ. unfold bind.
  destruct (Hm w HJ) as [HJ1 [Hle1 Hfuel1]].
  destruct (m w) as [[a | | |] w1]; simpl in *;
    try (repeat split; [assumption | assumption | discriminate
                       | intros ? H; discriminate]).
  - destruct (Hf a w1 HJ1) as [HJ2 [Hle2 [Hfuel2 Hlt2]]].
    repeat split; [assumption | lia | assumption |].
    intros b Hb. specialize (Hlt2 b Hb). lia.
  - contradiction.
Qed.

Lemma advancing_break (J : World -> Prop) {A} : advancing J (@break A).
Proof.
  intros w HJ. simpl.
  repeat split; [assumption | lia | discriminate | intros ? H; discriminate].
Qed.

Section AfterStop.

Variable env : Env.
Variable k0 : nat.

Hypothesis stop_at : forall b, interference env k0 b = false.
Hypothesis no_restart :
  forall k, (k0 < k)%nat -> interference env k false = false.

Lemma stoppedAfter_suspended (w w' : World) :
  stoppedAfter k0 w ->
  awaits w' = Datatypes.S (awaits w) ->
  isRunning w' = interference env (awaits w) (isRunning w) ->
  stoppedAfter k0 w'.
Proof.
  intros HJ Hawaits Hflag Hlt. rewrite Hflag.
  destruct (Nat.eq_dec (awaits w) k0) as [-> | Hne].
  - apply stop_at.
  - assert (Hpast : (k0 < awaits w)%nat) by lia.
    rewrite (HJ Hpast). apply no_restart. exact Hpast.
Qed.

Lemma steady_frame {A} (m : M A) :
  (forall w, isRunning (snd (m w)) = isRunning w /\
             awaits (snd (m w)) = awaits w /\
             fst (m w) <> Fuel) ->
  steady (stoppedAfter k0) m.
Proof.
  intros Hm w HJ. destruct (Hm w) as [Hflag [Hawaits Hfuel]].
  repeat split; [| lia | exact Hfuel].
  unfold stoppedAfter. rewrite Hflag, Hawaits. exact HJ.
Qed.

Lemma advancing_suspend : advancing (stoppedAfter k0) (suspend env).
Proof.
  intros w HJ. simpl.
  repeat split; [| lia | discriminate | intros; lia].
  apply (stoppedAfter_suspended w); auto.
Qed.

Lemma steady_ret {A} (a : A) : steady (stoppedAfter k0) (ret a).
Proof. apply steady_frame. intros w. simpl. repeat split. discriminate. Qed.

Lemma steady_break {A} : steady (stoppedAfter k0) (@break A).
Proof. apply steady_frame. intros w. simpl. repeat split. discriminate. Qed.

Lemma steady_orThrow {A} (o : option A) :
  steady (stoppedAfter k0) (orThrow o).
Proof.
  apply steady_frame. intros w. destruct o; simpl; repeat split; discriminate.
Qed.

Lemma steady_perform (a : Action) : steady (stoppedAfter k0) (perform a).
Proof. apply steady_frame. intros w. simpl. repeat split. discriminate. Qed.

Lemma steady_checkRunning : steady (stoppedAfter k0) checkRunning.
Proof. apply steady_frame. intros w. simpl. repeat split. discriminate. Qed.

Lemma steady_dateNow : steady (stoppedAfter k0) dateNow.
Proof. apply steady_frame. intros w. simpl. repeat split. discriminate. Qed.

Lemma steady_getEditor (h : Handle) : steady (stoppedAfter k0) (getEditor h).
Proof. intros w. unfold getEditor. apply steady_orThrow. Qed.

Lemma steady_putEditor (h : Handle) (ed : TextEditor) :
  steady (stoppedAfter k0) (putEditor h ed).
Proof. apply steady_frame. intros w. simpl. repeat split. discriminate. Qed.

Lemma steady_addEditor (ed : TextEditor) :
  steady (stoppedAfter k0) (addEditor ed).
Proof. apply steady_frame. intros w. simpl. repeat split. discriminate. Qed.

Lemma steady_elapse (ms : Z) : steady (stoppedAfter k0) (elapse ms).
Proof. apply steady_frame. intros w. simpl. repeat split. discriminate. Qed.

Lemma steady_mathRandom : steady (stoppedAfter k0) (mathRandom env).
Proof. apply steady_frame. intros w. simpl. repeat split. discriminate. Qed.

Lemma steady_suspend : steady (stoppedAfter k0) (suspend env).
Proof. apply advancing_steady, advancing_suspend. Qed.

Create HintDb steady.
#[local] Hint Resolve steady_ret steady_break steady_orThrow steady_perform
  steady_checkRunning steady_dateNow steady_getEditor steady_putEditor
  steady_addEditor steady_elapse steady_mathRandom steady_suspend : steady.
#[local] Hint Extern 2 (steady _ (bind _ _)) =>
  (apply steady_bind; [| intro]) : steady.
#[local] Hint Extern 3 (steady _ (if ?c then _ else _)) =>
  destruct c : steady.
#[local] Hint Extern 3 (steady _ (match ?c with Some _ => _ | None => _ end))
  => destruct c : steady.

Lemma steady_setSelection (h : Handle) (sel : Selection) :
  steady (stoppedAfter k0) (setSelection h sel).
Proof. unfold setSelection. auto with steady. Qed.

Lemma steady_revealRange (h : Handle) (r : Range) :
  steady (stoppedAfter k0) (revealRange h r).
Proof. unfold revealRange. auto with steady. Qed.

Lemma steady_sleep (ms : Z) : steady (stoppedAfter k0) (sleep env ms).
Proof. unfold sleep. auto with steady. Qed.

#[local] Hint Resolve steady_setSelection steady_revealRange steady_sleep
  : steady.

Lemma steady_getRandomFile (files : list Uri) (exclude : option Uri) :
  steady (stoppedAfter k0) (getRandomFile env files exclude).
Proof. unfold getRandomFile. auto with steady. Qed.

Lemma steady_selectRandomLines (h : Handle) (lineCount : Z) :
  steady (stoppedAfter k0) (selectRandomLines env h lineCount).
Proof. unfold selectRandomLines. auto 12 with steady. Qed.

Lemma steady_deselectLines (h : Handle) :
  steady (stoppedAfter k0) (deselectLines h).
Proof. unfold deselectLines. auto with steady. Qed.

Lemma advancing_openFile (file : Uri) :
  advancing (stoppedAfter k0) (openFile env file).
Proof.
  unfold openFile.
  apply advancing_after; [auto with steady | intros _].
  apply advancing_then; [apply advancing_suspend | intros _].
  auto 8 with steady.
Qed.

#[local] Hint Resolve steady_getRandomFile steady_selectRandomLines
  steady_deselectLines : steady.

(** A pass of the scroll loop throws before it is suspended, or takes
    200 ms at least. *)
Lemma scrollBody_cases (h : Handle) (lineCount : Z) (s : bool * Z)
    (w : World) :
  (fst (scrollBody env h lineCount s w) = Throw /\
   isRunning (snd (scrollBody env h lineCount s w)) = isRunning w /\
   awaits (snd (scrollBody env h lineCount s w)) = awaits w) \/
  (exists s',
      fst (scrollBody env h lineCount s w) = Ret s' /\
      isRunning (snd (scrollBody env h lineCount s w))
        = interference env (awaits w) (isRunning w) /\
      awaits (snd (scrollBody env h lineCount s w))
        = Datatypes.S (awaits w) /\
      clock w + 200 <= clock (snd (scrollBody env h lineCount s w))).
Proof.
  destruct (newPosition (snd s) 0) as [pos |] eqn:Hpos.
  - destruct (nth_error (editors w) h) as [ed |] eqn:Hed.
    + assert (Hrun : scrollBody env h lineCount s w =
                (Ret (advance lineCount s),
                 mkWorld (interference env (awaits w) (isRunning w))
                   (clock w + 200 + Z.of_nat (lateness env (awaits w)))
                   (Datatypes.S (awaits w)) (draws w)
                   (replaceAt h (mkEditor (document ed) (selection ed)
                                          (Some (newRange pos pos)))
                              (editors w))
                   (Performed (isRunning w) (Sleep 200)
                      :: Performed (isRunning w)
                           (RevealRange h (newRange pos pos))
                      :: log w))).
      { unfold scrollBody, bind at 1. rewrite Hpos. simpl orThrow.
        unfold ret at 1.
        unfold revealRange, sleep, bind, getEditor, perform, putEditor,
          elapse, suspend, ret.
        simpl. rewrite Hed. simpl. reflexivity. }
      right. rewrite Hrun. eexists. simpl. repeat split. lia.
    + assert (Hrun : scrollBody env h lineCount s w = (Throw, w)).
      { unfold scrollBody, bind at 1. rewrite Hpos. simpl orThrow.
        unfold ret at 1.
        unfold revealRange, bind, getEditor. rewrite Hed. reflexivity. }
      left. rewrite Hrun. simpl. auto.
  - assert (Hrun : scrollBody env h lineCount s w = (Throw, w)).
    { unfold scrollBody, bind at 1. rewrite Hpos. reflexivity. }
    left. rewrite Hrun. simpl. auto.
Qed.

Lemma scrollLoop_steady (h : Handle) (lineCount endTime : Z) (fuel : nat) :
  forall (s : bool * Z) (w : World) o w',
    stoppedAfter k0 w ->
    endTime - clock w <= 200 * Z.of_nat fuel ->
    while fuel (scrollCond endTime) (scrollBody env h lineCount) s w
      = (o, w') ->
    stoppedAfter k0 w' /\ (awaits w <= awaits w')%nat /\ o <> Fuel.
Proof.
  induction fuel as [| fuel IH]; intros s w o w' HJ Htime Hrun;
    cbn [while] in Hrun;
    unfold scrollCond, bind at 1, dateNow in Hrun;
    destruct (Z.ltb_spec (clock w) endTime) as [Hbefore | Hafter];
    try lia;
    try (inversion Hrun; subst;
         repeat split; [assumption | lia | discriminate]).
  unfold checkRunning in Hrun. destruct (isRunning w) eqn:Hflag.
  - set (w1 := record (Checkpoint true) w) in *.
    assert (HJ1 : stoppedAfter k0 w1)
      by (unfold stoppedAfter, w1; simpl; exact HJ).
    destruct (scrollBody_cases h lineCount s w1)
      as [[Ho [Hf Ha]] | [s' [Ho [Hf [Ha Hc]]]]];
      destruct (scrollBody env h lineCount s w1) as [o2 w2];
      cbn [fst snd] in *; subst o2;
      assert (Hclock : clock w1 = clock w) by reflexivity;
      assert (Hawaits : awaits w1 = awaits w) by reflexivity.
    + inversion Hrun; subst. repeat split; [| lia | discriminate].
      unfold stoppedAfter. rewrite Hf, Ha. exact HJ1.
    + assert (HJ2 : stoppedAfter k0 w2)
        by (apply (stoppedAfter_suspended w1); assumption).
      destruct (IH s' w2 o w' HJ2) as [HJ3 [Hle Hfuel]];
        [lia | exact Hrun |].
      repeat split; [assumption | lia | assumption].
  - inversion Hrun; subst. repeat split; [| simpl; lia | discriminate].
    unfold stoppedAfter. simpl. auto.
Qed.

Lemma steady_scrollUpAndDown (h : Handle) (durationMs : Z) :
  steady (stoppedAfter k0) (scrollUpAndDown env h durationMs).
Proof.
  intros w HJ.
  destruct (nth_error (editors w) h) as [ed |] eqn:Hed.
  - destruct (while (scrollFuel durationMs)
                (scrollCond (clock w + durationMs))
                (scrollBody env h (docLineCount (document ed))) (true, 0) w)
      as [o w'] eqn:Hrun.
    assert (Heq : scrollUpAndDown env h durationMs w =
                  (match o with
                   | Ret _ => Ret tt
                   | Brk => Brk
                   | Throw => Throw
                   | Fuel => Fuel
                   end, w')).
    { unfold scrollUpAndDown, bind at 1, getEditor. rewrite Hed.
      simpl orThrow. unfold ret at 1. unfold bind at 1, dateNow.
      unfold bind at 1. rewrite Hrun. destruct o; reflexivity. }
    pose proof (scrollFuel_enough durationMs) as Hfuel.
    destruct (scrollLoop_steady h (docLineCount (document ed))
                (clock w + durationMs) (scrollFuel durationMs) (true, 0) w
                o w' HJ)
      as [HJ1 [Hle Hnot]]; [lia | exact Hrun |].
    rewrite Heq. cbn [fst snd].
    repeat split; [assumption | assumption |].
    destruct o; [discriminate | discriminate | discriminate |].
    exfalso. apply Hnot. reflexivity.
  - assert (Heq : scrollUpAndDown env h durationMs w = (Throw, w)).
    { unfold scrollUpAndDown, bind, getEditor. rewrite Hed. reflexivity. }
    rewrite Heq. cbn [fst snd].
    repeat split; [assumption | lia | discriminate].
Qed.

#[local] Hint Resolve steady_scrollUpAndDown : steady.

Lemma steady_openFile (file : Uri) :
  steady (stoppedAfter k0) (openFile env file).
Proof. apply advancing_steady, advancing_openFile. Qed.

#[local] Hint Resolve steady_openFile : steady.

Ltac sstep :=
  lazymatch goal with
  | |- steady _ (bind _ _) =>
      apply steady_bind; [solve [auto with steady] | intros ?]
  | |- steady _ (match ?r with Some _ => _ | None => _ end) =>
      destruct r; [| apply steady_break]
  | |- steady _ (if negb ?r then break else _) =>
      destruct r; simpl negb; cbv iota; [| apply steady_break]
  | |- steady _ (scrollUpAndDown _ _ _) => apply steady_scrollUpAndDown
  end.

Ltac astep :=
  lazymatch goal with
  | |- advancing _ (bind (openFile _ _) _) =>
      apply advancing_then;
        [apply advancing_openFile | intros ?; repeat sstep]
  | |- advancing _ (bind _ _) =>
      apply advancing_after; [solve [auto with steady] | intros ?]
  | |- advancing _ (match ?r with Some _ => _ | None => _ end) =>
      destruct r; [| apply advancing_break]
  | |- advancing _ (if negb ?r then break else _) =>
      destruct r; simpl negb; cbv iota; [| apply advancing_break]
  end.

Lemma advancing_cycle (files : list Uri) :
  advancing (stoppedAfter k0) (cycle env files).
Proof.
  unfold cycle. cbv zeta. repeat astep.
Qed.

(** After the suspension [k0] the loop returns within the passes that
    [fuel] allows. *)
Lemma runLoop_ends (files : list Uri) (fuel : nat) :
  forall w,
    stoppedAfter k0 w ->
    (k0 + 1 <= fuel + awaits w)%nat ->
    fst (runLoop env fuel files w) <> Fuel.
Proof.
  unfold runLoop.
  induction fuel as [| fuel IH]; intros w HJ Hfuel; simpl;
    unfold checkRunning; destruct (isRunning w) eqn:Hflag; simpl;
    try discriminate.
  - assert (Hpast : (k0 < awaits w)%nat) by lia.
    rewrite (HJ Hpast) in Hflag. discriminate Hflag.
  - set (w1 := record (Checkpoint true) w).
    assert (HJ1 : stoppedAfter k0 w1)
      by (unfold stoppedAfter, w1; simpl; exact HJ).
    destruct (advancing_cycle files w1 HJ1) as [HJ2 [Hle [Hnot Hlt]]].
    destruct (cycle env files w1) as [[[] | | |] w2]; simpl in *;
      try discriminate; try contradiction.
    apply IH; [exact HJ2 |].
    specialize (Hlt tt eq_refl).
    destruct (Nat.le_gt_cases (awaits w) k0) as [Hnot_yet | Hpast].
    + lia.
    + rewrite (HJ Hpast) in Hflag. discriminate Hflag.
Qed.

End AfterStop.

(** X20: [stop] is honoured.  If a handler clears the flag during the
    suspension [k0], which is still to come, and none sets it again
    afterwards, the loop returns, after at most [k0 + 1] further passes of
    its body less the suspensions already behind; on a list that is not
    empty it returns with the flag [false].  Documents are taken to have
    at least one line, as those of the host have. *)
Theorem runLoop_halts_after_stop (env : Env) (k0 fuel : nat)
    (files : list Uri) (w : World) :
  (forall b, interference env k0 b = false) ->
  (forall k, (k0 < k)%nat -> interference env k false = false) ->
  (awaits w <= k0)%nat ->
  (k0 + 1 <= fuel + awaits w)%nat ->
  (forall f, 1 <= docLineCount (contentOf env f)) ->
  Forall (fun d => 1 <= docLineCount d) (map document (editors w)) ->
  exists w',
    runLoop env fuel files w = (Ret tt, w') /\
    (files <> [] -> isRunning w' = false).
Proof.
  intros Hstop Hstay Hfuture Hfuel Hcontent Hstore.
  assert (HJ : stoppedAfter k0 w) by (intros Hpast; lia).
  pose proof (runLoop_ends env k0 Hstop Hstay files fuel w HJ Hfuel)
    as Hends.
  assert (Hstart : Ok (storeDocs w) 0 w).
  { split; [exists []; rewrite app_nil_r; reflexivity |].
    split; [exact Hstore | lia]. }
  pose proof (ok_runLoop env (storeDocs w) Hcontent files fuel w Hstart)
    as Hok.
  destruct (runLoop_discipline env fuel files w)
    as [o [w' [new [Hrun [_ Hend]]]]].
  rewrite Hrun in Hends, Hok. simpl in Hends, Hok.
  destruct o as [[] | | |]; simpl in Hok; try contradiction.
  - exists w'. split; [exact Hrun |].
    intros Hne. apply (runLoop_returns_stopped_aux env fuel files w w' Hne).
    exact Hrun.
Qed.

Lemma runLoop_halts_after_stop_witness :
  (forall b, interference stopDuringOpen 0 b = false) /\
  (forall k, (0 < k)%nat -> interference stopDuringOpen k false = false) /\
  (awaits (startWorld true) <= 0)%nat /\
  (0 + 1 <= 1 + awaits (startWorld true))%nat /\
  (forall f, 1 <= docLineCount (contentOf stopDuringOpen f)) /\
  Forall (fun d => 1 <= docLineCount d)
         (map document (editors (startWorld true))) /\
  exists w',
    runLoop stopDuringOpen 1 [fileA; fileB] (startWorld true) = (Ret tt, w')
    /\ isRunning w' = false.
Proof.
  assert (Hstop : forall b, interference stopDuringOpen 0 b = false)
    by (intros b; reflexivity).
  assert (Hstay : forall k, (0 < k)%nat ->
                    interference stopDuringOpen k false = false)
    by (intros k _; simpl; destruct (Nat.eqb k 0); reflexivity).
  assert (Hfuture : (awaits (startWorld true) <= 0)%nat) by (simpl; lia).
  assert (Hfuel : (0 + 1 <= 1 + awaits (startWorld true))%nat)
    by (simpl; lia).
  assert (Hcontent : forall f, 1 <= docLineCount (contentOf stopDuringOpen f)).
  { intros f. simpl. unfold sampleContent.
    destruct (String.eqb (fsPath f) "/w/a.ts"); vm_compute; discriminate. }
  assert (Hstore : Forall (fun d => 1 <= docLineCount d)
                     (map document (editors (startWorld true))))
    by constructor.
  repeat (split; [assumption |]).
  destruct (runLoop_halts_after_stop stopDuringOpen 0 1 [fileA; fileB]
              (startWorld true) Hstop Hstay Hfuture Hfuel Hcontent Hstore)
    as [w' [Hrun Hflag]].
  exists w'. split; [exact Hrun |]. apply Hflag. discriminate.
Defined.

(** X21: [start] looks at the flag only before the file search.  Invoked
    while stopped in a workspace with files, it sets the flag and runs the
    loop whatever the handlers that ran during the search did to the flag,
    also when another [start] has set it meanwhile. *)
Theorem startCommand_checks_flag_once (env : Env) (fuel : nat) (w : World) :
  isRunning w = false ->
  List.filter hasKnownExtension (foundFiles env) <> [] ->
  startCommand env fuel w =
    runLoop env fuel (List.filter hasKnownExtension (foundFiles env))
      (mkWorld true
         (clock w + Z.of_nat (lateness env (awaits w)))
         (Datatypes.S (awaits w)) (draws w) (editors w)
         (Performed true (ShowInformationMessage startedMessage)
            :: Performed false FindFiles :: log w)).
Proof.
  intros Hflag Hfiles.
  unfold startCommand, bind at 1, readRunning. rewrite Hflag.
  unfold bind at 1. unfold getWorkspaceFiles, bind, perform, suspend, ret.
  simpl fst. simpl snd. cbv beta iota.
  destruct (List.filter hasKnownExtension (foundFiles env))
    as [| f files]; [contradiction |].
  change (Z.of_nat (List.length (f :: files)) =? 0) with false.
  cbv beta iota. unfold setRunning. simpl. rewrite Hflag. reflexivity.
Qed.

Lemma startCommand_checks_flag_once_witness :
  isRunning (startWorld false) = false /\
  List.filter hasKnownExtension (foundFiles startDuringSearch) <> [] /\
  interference startDuringSearch (awaits (startWorld false)) false = true /\
  startCommand startDuringSearch 1 (startWorld false) =
    runLoop startDuringSearch 1 [fileA; fileB]
      (mkWorld true 0 1 0 []
         [Performed true (ShowInformationMessage startedMessage);
          Performed false FindFiles]).
Proof.
  assert (Hfiles : List.filter hasKnownExtension
                     (foundFiles startDuringSearch) <> [])
    by (vm_compute; discriminate).
  split; [reflexivity |]. split; [exact Hfiles |]. split; [reflexivity |].
  exact (startCommand_checks_flag_once startDuringSearch 1
           (startWorld false) eq_refl Hfiles).
Defined.
